(** * Response normalisation pipeline of the conversational-analytics client

    A shallow embedding of [src/chat_handler.py] (streamed message parser,
    tabular result decoder, embedded-spec extractor) and of
    [src/visualization.py] (chart-spec normaliser), with the properties the
    specification states about them.

    Python values are embedded as the JSON-shaped trees the code receives
    from [json.loads] and [MessageToDict]; a Python exception is the
    [Raise] branch of a small error monad. *)

From Stdlib Require Import ZArith List String Ascii Bool Lia Floats.
From Stdlib Require Import DecimalString.
Import ListNotations.
Local Open Scope list_scope.
Local Open Scope string_scope.

(* ================================================================== *)
(** * Python values *)
(* ================================================================== *)

Module Py.

(** A [dict] keeps insertion order, so it is an association list; keys are
    strings, as in every mapping decoded from JSON or from a protobuf. *)
Inductive pyval : Type :=
| PNone
| PBool (b : bool)
| PInt (z : Z)
| PFloat (f : float)
| PStr (s : string)
| PList (l : list pyval)
| PDict (d : list (string * pyval)).

Definition pydict : Type := list (string * pyval).

Inductive pyexc : Type := TypeError | AttributeError | KeyError | OtherError.

Inductive res (A : Type) : Type :=
| Ok (a : A)
| Raise (e : pyexc).
Arguments Ok {A} a.
Arguments Raise {A} e.

Definition bind {A B : Type} (m : res A) (k : A -> res B) : res B :=
  match m with
  | Ok a => k a
  | Raise e => Raise e
  end.

Notation "x <- m ;; k" := (bind m (fun x => k))
  (at level 61, m at next level, right associativity).

Fixpoint mapM {A B : Type} (f : A -> res B) (l : list A) : res (list B) :=
  match l with
  | [] => Ok []
  | x :: rest => y <- f x ;; ys <- mapM f rest ;; Ok (y :: ys)
  end.

Fixpoint foldM {A S : Type} (f : S -> A -> res S) (l : list A) (s : S) : res S :=
  match l with
  | [] => Ok s
  | x :: rest => s' <- f s x ;; foldM f rest s'
  end.

Definition is_nil {A : Type} (l : list A) : bool :=
  match l with [] => true | _ => false end.

(** [bool(v)] *)
Definition py_truthy (v : pyval) : bool :=
  match v with
  | PNone => false
  | PBool b => b
  | PInt z => negb (z =? 0)%Z
  | PFloat f => negb (PrimFloat.eqb f 0%float)
  | PStr s => negb (s =? "")
  | PList l => negb (is_nil l)
  | PDict d => negb (is_nil d)
  end.

(** [d.get(k)] *)
Fixpoint dict_get (d : pydict) (k : string) : option pyval :=
  match d with
  | [] => None
  | (k', v) :: rest => if k' =? k then Some v else dict_get rest k
  end.

(** [k in d] *)
Definition dict_mem (k : string) (d : pydict) : bool :=
  match dict_get d k with Some _ => true | None => false end.

(** [d.get(k, default)] *)
Definition dict_get_default (d : pydict) (k : string) (default : pyval) : pyval :=
  match dict_get d k with Some v => v | None => default end.

(** [d[k] = v]: an existing key keeps its position, a new one goes last. *)
Fixpoint dict_set (k : string) (v : pyval) (d : pydict) : pydict :=
  match d with
  | [] => [(k, v)]
  | (k', v') :: rest =>
      if k' =? k then (k, v) :: rest else (k', v') :: dict_set k v rest
  end.

(** [del d[k]] *)
Fixpoint dict_del (k : string) (d : pydict) : pydict :=
  match d with
  | [] => []
  | (k', v') :: rest =>
      if k' =? k then dict_del k rest else (k', v') :: dict_del k rest
  end.

Definition dict_keys (d : pydict) : list string := map fst d.
Definition dict_values (d : pydict) : list pyval := map snd d.

Definition is_dict (v : pyval) : bool :=
  match v with PDict _ => true | _ => false end.

(** [isinstance(v, (int, float))]; [bool] is a subclass of [int]. *)
Definition is_number (v : pyval) : bool :=
  match v with PBool _ | PInt _ | PFloat _ => true | _ => false end.

(** [v == s] for a string literal [s] *)
Definition py_eq_str (v : pyval) (s : string) : bool :=
  match v with PStr s' => s' =? s | _ => false end.

Fixpoint chars (s : string) : list pyval :=
  match s with
  | EmptyString => []
  | String c rest => PStr (String c EmptyString) :: chars rest
  end.

(** [iter(v)]: what a [for] loop over [v] visits. *)
Definition py_iter (v : pyval) : res (list pyval) :=
  match v with
  | PList l => Ok l
  | PDict d => Ok (map PStr (dict_keys d))
  | PStr s => Ok (chars s)
  | _ => Raise TypeError
  end.

(** [d.get(key)] for a key that is any value: a list or a dict is
    unhashable, any other non-string key is simply absent. *)
Definition py_dict_get (d : pydict) (key : pyval) : res (option pyval) :=
  match key with
  | PStr k => Ok (dict_get d k)
  | PList _ | PDict _ => Raise TypeError
  | _ => Ok None
  end.

(** [sub in s] on strings *)
Definition str_contains (sub s : string) : bool :=
  match String.index 0 sub s with Some _ => true | None => false end.

(** [k in v] for a string literal [k] *)
Definition py_contains (k : string) (v : pyval) : res bool :=
  match v with
  | PDict d => Ok (dict_mem k d)
  | PStr s => Ok (str_contains k s)
  | PList l => Ok (existsb (fun x => py_eq_str x k) l)
  | _ => Raise TypeError
  end.

(** [v[k]] for a string literal [k] *)
Definition py_getitem (v : pyval) (k : string) : res pyval :=
  match v with
  | PDict d => match dict_get d k with Some x => Ok x | None => Raise KeyError end
  | _ => Raise TypeError
  end.

(** [len(v)] *)
Definition py_len (v : pyval) : res nat :=
  match v with
  | PDict d => Ok (List.length d)
  | PList l => Ok (List.length l)
  | PStr s => Ok (String.length s)
  | _ => Raise TypeError
  end.

(** [v.get(key, default)]: only a dict has [get]. *)
Definition py_get (v : pyval) (key : pyval) (default : pyval) : res pyval :=
  match v with
  | PDict d =>
      o <- py_dict_get d key ;;
      Ok (match o with Some x => x | None => default end)
  | _ => Raise AttributeError
  end.

(** [for i, x in enumerate(l)] with a body that may raise *)
Fixpoint mapMi {A B : Type} (f : nat -> A -> res B) (i : nat) (l : list A)
  : res (list B) :=
  match l with
  | [] => Ok []
  | x :: rest => y <- f i x ;; ys <- mapMi f (S i) rest ;; Ok (y :: ys)
  end.

(** [str(i)] for a natural number *)
Definition string_of_nat (i : nat) : string :=
  NilEmpty.string_of_uint (Nat.to_uint i).

(** [v.values()] *)
Definition py_values (v : pyval) : res (list pyval) :=
  match v with
  | PDict d => Ok (dict_values d)
  | _ => Raise AttributeError
  end.

End Py.
Import Py.

(* ================================================================== *)
(** * visualization.py: the chart-spec normaliser *)
(* ================================================================== *)

Module Visualization.

Definition vega_lite_v5 : string :=
  "https://vega.github.io/schema/vega-lite/v5.json".

(** ["window" in t or "sort" in t], for [t] a dict *)
Definition step_has_window (t : pyval) : bool :=
  match t with
  | PDict d => dict_mem "window" d || dict_mem "sort" d
  | _ => false
  end.

Definition has_window (transforms : list pyval) : bool :=
  existsb step_has_window transforms.

(** Lines 105-114: the whole transform list goes when one step offends. *)
Definition drop_window_transform (spec : pydict) : res pydict :=
  match dict_get spec "transform" with
  | None => Ok spec
  | Some transforms =>
      steps <- py_iter transforms ;;
      Ok (if has_window steps then dict_del "transform" spec else spec)
  end.

(** [axis["sort"] == {} or axis["sort"] is None] *)
Definition sort_is_empty (s : pyval) : bool :=
  match s with
  | PDict [] => true
  | PNone => true
  | _ => false
  end.

Definition clean_axis (axis : pyval) : pyval :=
  match axis with
  | PDict a =>
      match dict_get a "sort" with
      | Some s => if sort_is_empty s then PDict (dict_del "sort" a) else axis
      | None => axis
      end
  | _ => axis
  end.

Definition clean_channel (encoding : pydict) (axis_key : string) : pydict :=
  match dict_get encoding axis_key with
  | Some axis => dict_set axis_key (clean_axis axis) encoding
  | None => encoding
  end.

Definition sort_channels : list string := ["x"; "y"; "color"; "theta"].

(** Lines 117-122. [encoding.get] needs [encoding] to be a dict. *)
Definition clean_empty_sorts (spec : pydict) : res pydict :=
  match dict_get spec "encoding" with
  | None => Ok spec
  | Some (PDict encoding) =>
      Ok (dict_set "encoding"
            (PDict (fold_left clean_channel sort_channels encoding)) spec)
  | Some _ => Raise AttributeError
  end.

(** [1e8 < v < 3e9]; Python compares an int with a float exactly. *)
Definition in_epoch_seconds (v : pyval) : bool :=
  match v with
  | PInt z => (100000000 <? z)%Z && (z <? 3000000000)%Z
  | PFloat f => (1e8 <? f)%float && (f <? 3e9)%float
  | PBool b => false
  | _ => false
  end.

(** [v * 1000] for a number [v] *)
Definition times_1000 (v : pyval) : pyval :=
  match v with
  | PBool b => PInt (if b then 1000 else 0)
  | PInt z => PInt (z * 1000)
  | PFloat f => PFloat (f * 1000)%float
  | _ => v
  end.

Definition temporal_channels : list string := ["x"; "y"; "color"].

(** Lines 154-159, one channel. *)
Definition temporal_field (encoding : pydict) (axis_key : string) : list pyval :=
  match dict_get encoding axis_key with
  | Some (PDict axis) =>
      if py_eq_str (dict_get_default axis "type" PNone) "temporal" then
        match dict_get axis "field" with
        | Some field => if py_truthy field then [field] else []
        | None => []
        end
      else []
  | _ => []
  end.

Definition temporal_fields (encoding : pydict) : list pyval :=
  flat_map (temporal_field encoding) temporal_channels.

(** The comprehension of lines 166-169 over the rows it is given. *)
Fixpoint numeric_cells (field : pyval) (rows : list pyval) : res (list pyval) :=
  match rows with
  | [] => Ok []
  | PDict row :: rest =>
      v <- py_dict_get row field ;;
      vs <- numeric_cells field rest ;;
      Ok (match v with
          | Some x => if is_number x then x :: vs else vs
          | None => vs
          end)
  | _ :: rest => numeric_cells field rest
  end.

Definition sample_vals (field : pyval) (rows : list pyval) : res (list pyval) :=
  numeric_cells field (firstn 5 rows).

(** Lines 173-174 on one row. *)
Definition scale_row (field : pyval) (row : pyval) : res pyval :=
  match row with
  | PDict d =>
      v <- py_dict_get d field ;;
      Ok (match v, field with
          | Some x, PStr k =>
              if is_number x then PDict (dict_set k (times_1000 x) d) else row
          | _, _ => row
          end)
  | _ => Ok row
  end.

(** Lines 165-175 for one field. *)
Definition fix_field (rows : list pyval) (field : pyval) : res (list pyval) :=
  sample <- sample_vals field rows ;;
  if negb (is_nil sample) && forallb in_epoch_seconds sample
  then mapM (scale_row field) rows
  else Ok rows.

(** [values[:5]] and [for row in values] need a sequence: a list is
    processed row by row, a string only ever yields one-character strings
    (no row is a dict), anything else cannot be sliced. *)
Definition fix_values (fields : list pyval) (values : pyval) : res pyval :=
  match values with
  | PList rows => rows' <- foldM fix_field fields rows ;; Ok (PList rows')
  | PStr _ => Ok values
  | _ => Raise TypeError
  end.

Definition _fix_temporal_data (spec : pydict) : res pydict :=
  let encoding := dict_get_default spec "encoding" (PDict []) in
  match dict_get_default spec "data" (PDict []) with
  | PDict data =>
      let values := dict_get_default data "values" (PList []) in
      if negb (py_truthy values) then Ok spec
      else
        match encoding with
        | PDict enc =>
            let fields := temporal_fields enc in
            if is_nil fields then Ok spec
            else
              values' <- fix_values fields values ;;
              Ok (dict_set "data" (PDict (dict_set "values" values' data)) spec)
        | _ => Raise AttributeError
        end
  | _ => Raise AttributeError
  end.

(** Lines 129-130. *)
Definition force_schema (spec : pydict) : pydict :=
  if dict_mem "$schema" spec
  then dict_set "$schema" (PStr vega_lite_v5) spec
  else spec.

(** [copy.deepcopy] is the identity on immutable trees. *)
Definition _clean_vega_spec (spec : pydict) : res pydict :=
  s1 <- drop_window_transform spec ;;
  s2 <- clean_empty_sorts s1 ;;
  s3 <- _fix_temporal_data s2 ;;
  Ok (force_schema s3).

End Visualization.
Import Visualization.

(* ================================================================== *)
(** * chat_handler.py: the tabular result decoder *)
(* ================================================================== *)

Module Decoder.

Definition proto_tags : list string :=
  ["stringValue"; "numberValue"; "boolValue"; "integerValue"].

(** Lines 488-490: the first tag of the tuple that is [in val_wrapper]. *)
Fixpoint first_tag (tags : list string) (val_wrapper : pyval)
  : res (option pyval) :=
  match tags with
  | [] => Ok None
  | key :: rest =>
      present <- py_contains key val_wrapper ;;
      if present
      then v <- py_getitem val_wrapper key ;; Ok (Some v)
      else first_tag rest val_wrapper
  end.

Definition _extract_proto_value (val_wrapper : pyval) : res pyval :=
  if negb (py_truthy val_wrapper) then Ok PNone
  else
    found <- first_tag proto_tags val_wrapper ;;
    match found with
    | Some v => Ok v
    | None =>
        is_null <- py_contains "nullValue" val_wrapper ;;
        if is_null then Ok PNone
        else
          n <- py_len val_wrapper ;;
          if Nat.eqb n 0 then Ok PNone
          else
            vals <- py_values val_wrapper ;;
            Ok (match vals with v :: _ => v | [] => PNone end)
    end.

(** [result]: the two lists the decoder fills. *)
Record TableState : Type := {
  res_columns : list pyval;
  res_rows : list pyval
}.

(** [f.get("name", f"col_{i}")] *)
Definition col_name (i : nat) (f : pyval) : res pyval :=
  py_get f (PStr "name") (PStr ("col_" ++ string_of_nat i)).

(** Lines 427-430. *)
Definition schema_columns (dr_dict : pydict) : res (list pyval) :=
  fields <- py_get (dict_get_default dr_dict "schema" (PDict []))
                   (PStr "fields") (PList []) ;;
  if py_truthy fields
  then fs <- py_iter fields ;; mapMi col_name 0 fs
  else Ok [].

(** Lines 440-446: a row in protobuf Struct form. *)
Definition struct_row (cols : list pyval) (row : pydict) : res pyval :=
  row_values <-
    mapM (fun col_name =>
            fields <- py_getitem (PDict row) "fields" ;;
            val_wrapper <- py_get fields col_name (PDict []) ;;
            _extract_proto_value val_wrapper)
         cols ;;
  Ok (PList row_values).

(** Lines 449-451: a row that is a plain dict. *)
Definition direct_row (cols : list pyval) (row : pydict)
  : res (list pyval * pyval) :=
  let cols' := if is_nil cols then map PStr (dict_keys row) else cols in
  vals <- mapM (fun c => py_get (PDict row) c PNone) cols' ;;
  Ok (cols', PList vals).

Definition dict_row (st : TableState) (row : pydict) : res TableState :=
  if dict_mem "fields" row
  then
    r <- struct_row (res_columns st) row ;;
    Ok {| res_columns := res_columns st; res_rows := res_rows st ++ [r] |}
  else
    cr <- direct_row (res_columns st) row ;;
    Ok {| res_columns := fst cr; res_rows := res_rows st ++ [snd cr] |}.

(** The body of the loop of lines 435-453. *)
Definition primary_step (st : TableState) (row : pyval) : res TableState :=
  match row with
  | PDict d => dict_row st d
  | PList _ =>
      Ok {| res_columns := res_columns st; res_rows := res_rows st ++ [row] |}
  | _ => Ok st
  end.

(** The body of the loop of lines 459-471: no list rows here. *)
Definition fallback_step (st : TableState) (row : pyval) : res TableState :=
  match row with
  | PDict d => dict_row st d
  | _ => Ok st
  end.

(** [if rows and isinstance(rows, list): for row in rows: ...] *)
Definition run_pass (step : TableState -> pyval -> res TableState)
    (st : TableState) (source : pyval) : res TableState :=
  match source with
  | PList (r :: rest) => foldM step (r :: rest) st
  | _ => Ok st
  end.

Definition primary_pass (dr_dict : pydict) : res TableState :=
  cols <- schema_columns dr_dict ;;
  run_pass primary_step {| res_columns := cols; res_rows := [] |}
           (dict_get_default dr_dict "data" (PList [])).

Definition table_of (st : TableState) : pydict :=
  [("columns", PList (res_columns st)); ("rows", PList (res_rows st))].

(** Lines 473-476. *)
Definition finish (st : TableState) : option pydict :=
  if negb (is_nil (res_columns st)) || negb (is_nil (res_rows st))
  then Some (table_of st)
  else None.

(** Lines 421-476 on the converted payload. *)
Definition parse_dict (dr_dict : pydict) : res (option pydict) :=
  st <- primary_pass dr_dict ;;
  st' <- (if is_nil (res_rows st)
          then run_pass fallback_step st
                 (dict_get_default dr_dict "formattedData" (PList []))
          else Ok st) ;;
  Ok (finish st').

(** A [DataResult] is known through what [MessageToDict] makes of it: a
    plain mapping, or a failure of the conversion. *)
Record DataResult : Type := { MessageToDict_data : res pydict }.

(** The [try ... except Exception: return None] around the whole body. *)
Definition _parse_data_result (data_result : DataResult) : option pydict :=
  match dr_dict <- MessageToDict_data data_result ;; parse_dict dr_dict with
  | Ok table => table
  | Raise _ => None
  end.

End Decoder.
Import Decoder.

(* ================================================================== *)
(** * chat_handler.py: the embedded-spec extractor *)
(* ================================================================== *)

(** Text is a sequence of code points below 256. *)
Module Text.

Definition code (c : ascii) : nat := nat_of_ascii c.

(** [c.isspace()], which is also what [\s] matches: tab to carriage
    return, the four separators 28-31, space, NEL and no-break space. *)
Definition is_space (c : ascii) : bool :=
  let n := code c in
  (Nat.leb 9 n && Nat.leb n 13) || (Nat.leb 28 n && Nat.leb n 32)
  || Nat.eqb n 133 || Nat.eqb n 160.

Fixpoint all_space (s : string) : bool :=
  match s with
  | EmptyString => true
  | String c rest => is_space c && all_space rest
  end.

(** [s.lstrip()] *)
Fixpoint lstrip (s : string) : string :=
  match s with
  | EmptyString => EmptyString
  | String c rest => if is_space c then lstrip rest else s
  end.

(** [s.rstrip()] *)
Fixpoint rstrip (s : string) : string :=
  match s with
  | EmptyString => EmptyString
  | String c rest => if all_space s then EmptyString else String c (rstrip rest)
  end.

(** [s.strip()] *)
Definition strip (s : string) : string := rstrip (lstrip s).

(** [s[n:]] *)
Fixpoint drop (n : nat) (s : string) : string :=
  match n, s with
  | O, _ => s
  | S k, EmptyString => EmptyString
  | S k, String _ rest => drop k rest
  end.

(** [s[:n]] *)
Fixpoint take (n : nat) (s : string) : string :=
  match n, s with
  | O, _ => EmptyString
  | S k, EmptyString => EmptyString
  | S k, String c rest => String c (take k rest)
  end.

(** [" ".join(parts)] *)
Fixpoint join (sep : string) (parts : list string) : string :=
  match parts with
  | [] => EmptyString
  | [p] => p
  | p :: rest => p ++ sep ++ join sep rest
  end.

(** ASCII case folding, as [re.IGNORECASE] does on these code points. *)
Definition lower (c : ascii) : ascii :=
  let n := code c in
  if Nat.leb 65 n && Nat.leb n 90 then ascii_of_nat (n + 32) else c.

(** [s] starts with [p], letters compared without case. *)
Fixpoint prefix_ci (p s : string) : bool :=
  match p, s with
  | EmptyString, _ => true
  | String a p', String b s' => Ascii.eqb (lower a) (lower b) && prefix_ci p' s'
  | String _ _, EmptyString => false
  end.

(** [s.replace(pat, "")] for a non-empty [pat]: every occurrence, left to
    right, without overlap. [skip] counts the characters of the occurrence
    being removed. *)
Fixpoint remove_all_from (pat : string) (skip : nat) (s : string) : string :=
  match s with
  | EmptyString => EmptyString
  | String c rest =>
      match skip with
      | S k => remove_all_from pat k rest
      | O =>
          if String.prefix pat s
          then remove_all_from pat (String.length pat - 1) rest
          else String c (remove_all_from pat 0 rest)
      end
  end.

Definition remove_all (pat s : string) : string :=
  match pat with
  | EmptyString => s
  | _ => remove_all_from pat 0 s
  end.

Definition quote : string := String (ascii_of_nat 34) EmptyString.
Definition newline : string := String (ascii_of_nat 10) EmptyString.
Definition fence : string := "```".

End Text.
Import Text.

Module Extractor.

(** ** The fenced pattern [```(?:json|vega-lite)?\s*(\{.+?\})\s*```] *)

Definition skip_tag (s : string) : string :=
  if String.prefix "json" s then drop 4 s
  else if String.prefix "vega-lite" s then drop 9 s
  else s.

(** [\}\s*```] at the head of [s]: the number of characters it takes. *)
Definition close_here (s : string) : option nat :=
  match s with
  | String "}" rest =>
      let rest' := lstrip rest in
      if String.prefix fence rest'
      then Some (1 + (String.length rest - String.length rest') + 3)
      else None
  | _ => None
  end.

(** The lazy [.+?] after its first character: the shortest run of
    characters that is followed by a closing brace and the closing fence. *)
Fixpoint scan_body (s : string) : option (string * nat) :=
  match close_here s with
  | Some k => Some (EmptyString, k)
  | None =>
      match s with
      | EmptyString => None
      | String c rest =>
          match scan_body rest with
          | Some (body, k) => Some (String c body, S k)
          | None => None
          end
      end
  end.

(** One attempt of the pattern at the head of [s]: the group and the
    length of the whole match. *)
Definition fenced_at (s : string) : option (string * nat) :=
  if String.prefix fence s then
    let after_tag := skip_tag (drop 3 s) in
    let after_ws := lstrip after_tag in
    match after_ws with
    | String "{" (String c rest) =>
        match scan_body rest with
        | Some (body, k) =>
            Some (String "{" (String c (body ++ "}")),
                  (String.length s - String.length after_ws) + 2 + k)
        | None => None
        end
    | _ => None
    end
  else None.

(** [re.findall(fenced_pattern, text, flags=re.DOTALL)] *)
Fixpoint findall_from (skip : nat) (s : string) : list string :=
  match s with
  | EmptyString => []
  | String c rest =>
      match skip with
      | S k => findall_from k rest
      | O =>
          match fenced_at s with
          | Some (group, len) => group :: findall_from (len - 1) rest
          | None => findall_from 0 rest
          end
      end
  end.

Definition fenced_matches (text : string) : list string := findall_from 0 text.

(** One attempt of [```(?:json|vega-lite)?\s*<match>\s*```] at the head of
    [s], [<match>] taken literally: the length of the match. *)
Definition fenced_literal_at (m s : string) : option nat :=
  if String.prefix fence s then
    let after_ws := lstrip (skip_tag (drop 3 s)) in
    if String.prefix m after_ws then
      let after_m := drop (String.length m) after_ws in
      let after_ws2 := lstrip after_m in
      if String.prefix fence after_ws2
      then Some (String.length s - String.length after_ws2 + 3)
      else None
    else None
  else None.

(** [re.sub(that pattern, '', text, flags=re.DOTALL)] *)
Fixpoint fenced_sub_from (m : string) (skip : nat) (s : string) : string :=
  match s with
  | EmptyString => EmptyString
  | String c rest =>
      match skip with
      | S k => fenced_sub_from m k rest
      | O =>
          match fenced_literal_at m s with
          | Some len => fenced_sub_from m (len - 1) rest
          | None => String c (fenced_sub_from m 0 rest)
          end
      end
  end.

(** Lines 531-536: the three removals of an accepted fenced block. *)
Definition remove_fenced (m text : string) : string :=
  let text1 := remove_all ("```json" ++ newline ++ m ++ newline ++ fence) text in
  let text2 := remove_all (fence ++ m ++ fence) text1 in
  fenced_sub_from m 0 text2.

(** ** Inline objects *)

(** [[m.start() for m in re.finditer(r'\{', text)]] *)
Fixpoint brace_positions_from (i : nat) (s : string) : list nat :=
  match s with
  | EmptyString => []
  | String c rest =>
      if Ascii.eqb c "{" then i :: brace_positions_from (S i) rest
      else brace_positions_from (S i) rest
  end.

Definition brace_positions (text : string) : list nat :=
  brace_positions_from 0 text.

(** Lines 563-572: [i + 1] for the first closing brace that brings the
    depth back to zero. *)
Fixpoint match_brace (depth : Z) (i : nat) (s : string) : option nat :=
  match s with
  | EmptyString => None
  | String c rest =>
      if Ascii.eqb c "{" then match_brace (depth + 1) (S i) rest
      else if Ascii.eqb c "}" then
        if (depth - 1 =? 0)%Z then Some (S i)
        else match_brace (depth - 1) (S i) rest
      else match_brace depth (S i) rest
  end.

Definition has_marker (s : string) : bool :=
  str_contains (quote ++ "mark" ++ quote) s
  || str_contains (quote ++ "encoding" ++ quote) s.

(** [isinstance(parsed, dict) and ("encoding" in parsed or "mark" in parsed)] *)
Definition chart_of (parsed : pyval) : option pydict :=
  match parsed with
  | PDict d => if dict_mem "encoding" d || dict_mem "mark" d then Some d else None
  | _ => None
  end.

(** ** The trailing lead-in [Here's the chart:] *)

(** [[^.]*?:\s*$]: some colon, no full stop before it, only white space
    after it. *)
Fixpoint leadin_tail (s : string) : bool :=
  match s with
  | EmptyString => false
  | String c rest =>
      (Ascii.eqb c ":" && all_space rest)
      || (negb (Ascii.eqb c ".") && leadin_tail rest)
  end.

(** The ways an optional group [(?:a|b|...)?] can consume the head of [s]. *)
Definition optional (alternatives : list string) (s : string) : list string :=
  List.app
    (flat_map (fun a => if prefix_ci a s then [drop (String.length a) s] else [])
              alternatives)
    [s].

Definition expect (p : string) (s : string) : list string :=
  if prefix_ci p s then [drop (String.length p) s] else [].

(** The final pattern matches at the head of [s] (and then up to the end
    of the text). *)
Definition leadin_at (s : string) : bool :=
  let after_here := expect "Here" s in
  let after_verb :=
    flat_map (fun r => List.app (expect "'s" r) (expect " is" r)) after_here in
  let after_gap := flat_map (expect " ") after_verb in
  let after_article := flat_map (optional ["a "; "the "]) after_gap in
  let after_kind := flat_map (optional ["bar "; "line "; "pie "]) after_article in
  let after_chart := flat_map (expect "chart") after_kind in
  existsb leadin_tail after_chart.

(** [re.sub(final pattern, '', text, flags=re.IGNORECASE)]: the leftmost
    match runs to the end of the text. *)
Fixpoint leadin_sub (s : string) : string :=
  if leadin_at s then EmptyString
  else
    match s with
    | EmptyString => EmptyString
    | String c rest => String c (leadin_sub rest)
    end.

(** Line 586. *)
Definition final_cleanup (text : string) : string := strip (leadin_sub text).

(** What [json.loads] does with a candidate: it returns the decoded
    value, it raises the [JSONDecodeError] (a [ValueError]) that the
    extractor catches, or it raises something else, such as the
    [RecursionError] of a nesting deeper than the interpreter allows.  An
    exception that is not caught is known by its [str]. *)
Inductive json_outcome : Type :=
| Decoded (parsed : pyval)
| Rejected
| Crashed (error_msg : string).

(** A call that returns, or lets an exception through to its caller. *)
Inductive outcome (A : Type) : Type :=
| Returns (a : A)
| Propagates (error_msg : string).
Arguments Returns {A} a.
Arguments Propagates {A} error_msg.

Section WithJson.

Variable json_loads : string -> json_outcome.

(** Lines 525-539.  Only [JSONDecodeError] and [ValueError] are caught. *)
Fixpoint strategy_fenced (text : string) (matches : list string)
  : outcome (string * option pydict) :=
  match matches with
  | [] => Returns (text, None)
  | m :: rest =>
      match json_loads m with
      | Decoded parsed =>
          match chart_of parsed with
          | Some d => Returns (remove_fenced m text, Some d)
          | None => strategy_fenced text rest
          end
      | Rejected => strategy_fenced text rest
      | Crashed error_msg => Propagates error_msg
      end
  end.

(** Lines 549-582 for one brace position: the new text and the chart when
    one is accepted there. *)
Definition try_inline (text : string) (start_pos : nat)
  : outcome (option (string * pydict)) :=
  let remaining := drop start_pos text in
  if negb (has_marker remaining) then Returns None
  else
    match json_loads remaining with
    | Decoded parsed =>
        Returns match chart_of parsed with
                | Some d => Some (rstrip (take start_pos text), d)
                | None => None
                end
    | Rejected =>
        match match_brace 0 0 remaining with
        | Some len =>
            let end_pos := start_pos + len in
            match json_loads (take len (drop start_pos text)) with
            | Decoded parsed =>
                Returns match chart_of parsed with
                        | Some d =>
                            Some (strip (take start_pos text ++ drop end_pos text), d)
                        | None => None
                        end
            | Rejected => Returns None
            | Crashed error_msg => Propagates error_msg
            end
        | None => Returns None
        end
    | Crashed error_msg => Propagates error_msg
    end.

Fixpoint strategy_inline (text : string) (positions : list nat)
  : outcome (string * option pydict) :=
  match positions with
  | [] => Returns (text, None)
  | start_pos :: rest =>
      match try_inline text start_pos with
      | Returns (Some (text', d)) => Returns (text', Some d)
      | Returns None => strategy_inline text rest
      | Propagates error_msg => Propagates error_msg
      end
  end.

(** Lines 519-582: the two strategies. *)
Definition find_chart (text : string) : outcome (string * option pydict) :=
  match strategy_fenced text (fenced_matches text) with
  | Returns (text1, Some d) => Returns (text1, Some d)
  | Returns (text1, None) => strategy_inline text1 (brace_positions text1)
  | Propagates error_msg => Propagates error_msg
  end.

Definition _extract_chart_from_text (text : string)
  : outcome (string * option pydict) :=
  match find_chart text with
  | Returns found => Returns (final_cleanup (fst found), snd found)
  | Propagates error_msg => Propagates error_msg
  end.

(** Lines 590-597. *)
Definition _strip_vega_json (text : string) : outcome string :=
  match _extract_chart_from_text text with
  | Returns extracted => Returns (fst extracted)
  | Propagates error_msg => Propagates error_msg
  end.

End WithJson.

End Extractor.
Import Extractor.

(* ================================================================== *)
(** * chat_handler.py: the streamed message parser *)
(* ================================================================== *)

Module ChatHandler.

(** The display message. *)
Record ChatMessage : Type := {
  role : string;
  content : string;
  message_type : string;
  data : option pydict;
  chart_spec : option pyval;
  chart_image : option (list Byte.byte);
  sql_query : option string;
  metadata : pydict
}.

(** The protocol message.  A message-typed field that is unset (falsy in
    Python) is [None]; a string or bytes field is empty when unset. *)
Record UserMessage : Type := { user_text : string }.
Record TextMessage : Type := { parts : list string }.
Record DataMessage : Type := {
  generated_sql : string;
  result : option DataResult
}.
(** A chart result: whether [vega_config] is non-empty, what
    [MessageToDict] makes of the whole result, and the image bytes. *)
Record ChartResult : Type := {
  vega_config_set : bool;
  MessageToDict_chart : res pydict;
  image_data : list Byte.byte
}.
Record ChartMessage : Type := { chart_result : option ChartResult }.
(** A progress event is known through its [str]. *)
Record AnalysisMessage : Type := { progress_event : option string }.
Record ErrorMessage : Type := { error_text : string }.
Record SystemMessage : Type := {
  text : option TextMessage;
  sys_data : option DataMessage;
  chart : option ChartMessage;
  analysis : option AnalysisMessage;
  error : option ErrorMessage
}.
Record Message : Type := {
  user_message : option UserMessage;
  system_message : option SystemMessage
}.

Definition assistant (content message_type : string) : ChatMessage :=
  {| role := "assistant"; content := content; message_type := message_type;
     data := None; chart_spec := None; chart_image := None;
     sql_query := None; metadata := [] |}.

Definition chart_message (spec : pyval) : ChatMessage :=
  {| role := "assistant"; content := ""; message_type := "chart";
     data := None; chart_spec := Some spec; chart_image := None;
     sql_query := None; metadata := [] |}.

Definition image_message (image : list Byte.byte) : ChatMessage :=
  {| role := "assistant"; content := ""; message_type := "chart";
     data := None; chart_spec := None; chart_image := Some image;
     sql_query := None; metadata := [] |}.

Definition sql_message (sql : string) : ChatMessage :=
  {| role := "assistant"; content := sql; message_type := "sql";
     data := None; chart_spec := None; chart_image := None;
     sql_query := Some sql; metadata := [] |}.

Definition data_message (table : pydict) (sql : option string) : ChatMessage :=
  {| role := "assistant"; content := ""; message_type := "data";
     data := Some table; chart_spec := None; chart_image := None;
     sql_query := sql; metadata := [] |}.

Definition default_schema : pyval :=
  PStr "https://vega.github.io/schema/vega-lite/v5.json".

Section WithJson.

Variable json_loads : string -> json_outcome.

(** Lines 298-308: the chart found in the text. *)
Definition text_chart (spec : option pydict) : list ChatMessage :=
  match spec with
  | Some d =>
      if is_nil d then []
      else
        [chart_message
           (PDict (if dict_mem "$schema" d then d
                   else dict_set "$schema" default_schema d))]
  | None => []
  end.

(** Lines 289-315.  The extractor is called outside any [try]. *)
Definition text_messages (sys_msg : SystemMessage)
  : outcome (list ChatMessage) :=
  match text sys_msg with
  | Some t =>
      if is_nil (parts t) then Returns []
      else
        let joined := join " " (parts t) in
        if String.eqb (strip joined) "" then Returns []
        else
          match _extract_chart_from_text json_loads joined with
          | Returns extracted =>
              Returns
                (text_chart (snd extracted)
                 ++ (if String.eqb (strip (fst extracted)) "" then []
                     else [assistant (fst extracted) "text"]))%list
          | Propagates error_msg => Propagates error_msg
          end
  | None => Returns []
  end.

(** Lines 318-342. *)
Definition data_messages (sys_msg : SystemMessage) : list ChatMessage :=
  match sys_data sys_msg with
  | Some data_msg =>
      let sql_query :=
        if String.eqb (generated_sql data_msg) "" then None
        else Some (generated_sql data_msg) in
      (match sql_query with Some sql => [sql_message sql] | None => [] end)
      ++ (match result data_msg with
          | Some r =>
              match _parse_data_result r with
              | Some data_dict =>
                  if is_nil data_dict then [] else [data_message data_dict sql_query]
              | None => []
              end
          | None => []
          end)
  | None => []
  end.

(** Lines 353-372, after the conversion: the message is appended before
    the log line that may still raise; every failure is swallowed. *)
Definition vega_messages (cr : ChartResult) : list ChatMessage :=
  if vega_config_set cr then
    match MessageToDict_chart cr with
    | Ok cr_dict =>
        let spec := dict_get_default cr_dict "vegaConfig" (PDict []) in
        if py_truthy spec then
          match py_contains "$schema" spec with
          | Ok true => [chart_message spec]
          | Ok false =>
              match spec with
              | PDict d => [chart_message (PDict (dict_set "$schema" default_schema d))]
              | _ => []
              end
          | Raise _ => []
          end
        else []
    | Raise _ => []
    end
  else [].

(** Lines 375-381. *)
Definition image_messages (cr : ChartResult) : list ChatMessage :=
  if is_nil (image_data cr) then [] else [image_message (image_data cr)].

(** Lines 345-381. *)
Definition chart_messages (sys_msg : SystemMessage) : list ChatMessage :=
  match chart sys_msg with
  | Some c =>
      match chart_result c with
      | Some cr => vega_messages cr ++ image_messages cr
      | None => []
      end
  | None => []
  end.

(** Lines 384-392. *)
Definition analysis_messages (sys_msg : SystemMessage) : list ChatMessage :=
  match analysis sys_msg with
  | Some a =>
      match progress_event a with
      | Some event => [assistant event "reasoning"]
      | None => []
      end
  | None => []
  end.

(** Lines 395-400. *)
Definition error_messages (sys_msg : SystemMessage) : list ChatMessage :=
  match error sys_msg with
  | Some e =>
      if String.eqb (error_text e) "" then []
      else [assistant (error_text e) "error"]
  | None => []
  end.

Definition is_user_echo (msg : Message) : bool :=
  match user_message msg with
  | Some u => negb (String.eqb (user_text u) "")
  | None => false
  end.

Definition _parse_message (msg : Message) : outcome (list ChatMessage) :=
  if is_user_echo msg then Returns []
  else
    match system_message msg with
    | None => Returns []
    | Some sys_msg =>
        match text_messages sys_msg with
        | Returns from_text =>
            Returns
              (from_text ++ data_messages sys_msg
               ++ chart_messages sys_msg ++ analysis_messages sys_msg
               ++ error_messages sys_msg)%list
        | Propagates error_msg => Propagates error_msg
        end
    end.

(** What the response stream does when asked for its next element: it
    yields a message, or it fails with an exception whose [str] is given.
    A failure of [client.chat] itself is a stream that fails at once. *)
Inductive stream_event : Type :=
| Yields (msg : Message)
| Fails (error_msg : string).

Definition stream_error (error_msg : string) : ChatMessage :=
  assistant ("Error: " ++ error_msg) "error".

(** Lines 247-265: the loop, with the [except Exception] around it, which
    catches the failure of the stream and also whatever [_parse_message]
    lets through. *)
Fixpoint consume (stream : list stream_event) (messages : list ChatMessage)
  : list ChatMessage :=
  match stream with
  | [] => messages
  | Yields response_msg :: rest =>
      match _parse_message response_msg with
      | Returns parsed_msgs => consume rest (messages ++ parsed_msgs)
      | Propagates error_msg => messages ++ [stream_error error_msg]
      end
  | Fails error_msg :: _ => messages ++ [stream_error error_msg]
  end.

Definition _process_chat_response (stream : list stream_event)
  : list ChatMessage :=
  consume stream [].

End WithJson.

End ChatHandler.

(* ================================================================== *)
(** * Callers: the render gate and the stateless request *)
(* ================================================================== *)

Module Callers.
Import ChatHandler.

(** [data.get("values") or data.get("name") or data.get("url")
     or "datasets" in chart_spec], as a truth value *)
Definition has_data (data spec : pydict) : bool :=
  py_truthy (dict_get_default data "values" PNone)
  || py_truthy (dict_get_default data "name" PNone)
  || py_truthy (dict_get_default data "url" PNone)
  || dict_mem "datasets" spec.

(** visualization.py, [render_chart_from_spec], lines 61-87, up to its
    call of the renderer: the specification handed to
    [alt.Chart.from_dict], or nothing when the function returns [None]
    before it (empty spec, no data source, or an exception, which the
    [except] turns into [None]). *)
Definition chart_for_altair (chart_spec : pydict) : option pydict :=
  if is_nil chart_spec then None
  else
    let skip :=
      match dict_get_default chart_spec "data" (PDict []) with
      | PDict data => negb (has_data data chart_spec)
      | _ => false
      end in
    if skip then None
    else
      match _clean_vega_spec chart_spec with
      | Ok spec => Some spec
      | Raise _ => None
      end.

(** app.py, [render_message], lines 529-535: the test made on the
    cleaned specification; [data_section.get] needs a dict. *)
Definition cleaned_has_data (cleaned_spec : pydict) : res bool :=
  match dict_get_default cleaned_spec "data" (PDict []) with
  | PDict data_section => Ok (has_data data_section cleaned_spec)
  | _ => Raise AttributeError
  end.

(** app.py, lines 524-541: which renderer a chart message with a vector
    specification reaches. *)
Inductive drawn : Type :=
| VegaLite (spec : pydict)
| Altair (spec : pydict)
| Nothing.

Definition draw_chart_spec (chart_spec : pydict) : res drawn :=
  cleaned_spec <- _clean_vega_spec chart_spec ;;
  present <- cleaned_has_data cleaned_spec ;;
  if present then Ok (VegaLite cleaned_spec)
  else
    Ok (match chart_for_altair chart_spec with
        | Some spec => Altair spec
        | None => Nothing
        end).

(** chat_handler.py, [chat_stateless], lines 197-216: the texts of the
    user messages put in the request. *)
Definition stateless_messages (history : option (list ChatMessage))
    (user_message : string) : list string :=
  (match history with
   | Some h => map content (filter (fun msg => String.eqb (role msg) "user") h)
   | None => []
   end)
  ++ [user_message].

(** app.py, line 698: the user's message as the session keeps it. *)
Definition user_turn (prompt : string) : ChatMessage :=
  {| role := "user"; content := prompt; message_type := "text";
     data := None; chart_spec := None; chart_image := None;
     sql_query := None; metadata := [] |}.

(** app.py, lines 742-746: the history passed in stateless mode, from the
    session's messages (the current user message is their last). *)
Definition stateless_history (messages : list ChatMessage) : list ChatMessage :=
  removelast
    (filter (fun m => String.eqb (role m) "user" || String.eqb (role m) "assistant")
            messages).

(** app.py, lines 518-520 and 767: the SQL text shown, code-block markers
    removed.  [msg.sql_query or msg.content] takes the content when the
    query is absent or empty. *)
Definition sql_clean (msg : ChatMessage) : string :=
  let sql_text :=
    match sql_query msg with
    | Some q => if String.eqb q "" then content msg else q
    | None => content msg
    end in
  strip (remove_all "```" (remove_all "```sql" sql_text)).

End Callers.
Import Callers.

(* ================================================================== *)
(** * config/settings.py: the table list *)
(* ================================================================== *)

Module Settings.

(** [s.split(sep)] for a one-character separator: never an empty list. *)
Fixpoint split (sep : ascii) (s : string) : list string :=
  match s with
  | EmptyString => [EmptyString]
  | String c rest =>
      if Ascii.eqb c sep then EmptyString :: split sep rest
      else
        match split sep rest with
        | piece :: pieces => String c piece :: pieces
        | [] => [String c EmptyString]
        end
  end.

(** Lines 113-116. *)
Definition table_ids_list (bq_table_ids : string) : list string :=
  map strip
      (filter (fun t => negb (String.eqb (strip t) ""))
              (split "," bq_table_ids)).

End Settings.
Import Settings.

(* ================================================================== *)
(** * Vocabulary of the statements *)
(* ================================================================== *)

Module Vocabulary.

Definition is_str (v : pyval) : bool :=
  match v with PStr _ => true | _ => false end.

Definition unhashable (v : pyval) : bool :=
  match v with PList _ | PDict _ => true | _ => false end.

(** What a data row holds for a field: nothing unless the row is a mapping
    with that key. *)
Definition cell (f : string) (row : pyval) : option pyval :=
  match row with PDict d => dict_get d f | _ => None end.

Fixpoint keep_numbers (cells : list (option pyval)) : list pyval :=
  match cells with
  | [] => []
  | Some x :: rest => if is_number x then x :: keep_numbers rest else keep_numbers rest
  | None :: rest => keep_numbers rest
  end.

(** The test of line 170 for a field that is a string. *)
Definition triggers (f : string) (rows : list pyval) : bool :=
  let sample := keep_numbers (map (cell f) (firstn 5 rows)) in
  negb (is_nil sample) && forallb in_epoch_seconds sample.

(** A value after the seconds-to-milliseconds repair: numbers are
    multiplied by 1000, anything else is left as it is. *)
Definition scale_val (x : pyval) : pyval :=
  if is_number x then times_1000 x else x.

Definition scale_pure (f : string) (row : pyval) : pyval :=
  match row with
  | PDict d =>
      match dict_get d f with
      | Some x => if is_number x then PDict (dict_set f (times_1000 x) d) else row
      | None => row
      end
  | _ => row
  end.

(** A field on which a further pass of lines 165-175 changes nothing. *)
Definition settled (field : pyval) (rows : list pyval) : Prop :=
  match field with
  | PStr f => triggers f rows = false
  | _ => unhashable field && existsb is_dict (firstn 5 rows) = false
  end.

(** [spec["data"]["values"]] when it is a list of rows. *)
Definition data_rows (spec : pydict) : option (list pyval) :=
  match dict_get spec "data" with
  | Some (PDict data) =>
      match dict_get data "values" with
      | Some (PList rows) => Some rows
      | _ => None
      end
  | _ => None
  end.





(** [clean_channel] has nothing left to do on channel [k]. *)
Definition channel_clean (e : pydict) (k : string) : Prop :=
  match dict_get e k with Some a => clean_axis a = a | None => True end.

End Vocabulary.
Import Vocabulary.

Module ParserVocabulary.
Import ChatHandler.

(** At most one message, of the given kind. *)
Definition segment (kind : string) (l : list ChatMessage) : Prop :=
  List.length l <= 1 /\ Forall (fun m => message_type m = kind) l.

Definition vector_chart (m : ChatMessage) : Prop :=
  chart_spec m <> None /\ chart_image m = None.

Definition raster_chart (m : ChatMessage) : Prop :=
  chart_image m <> None /\ chart_spec m = None.

Definition payload (dr_dict : pydict) : DataResult :=
  {| MessageToDict_data := Ok dr_dict |}.

(** The decoder raises nothing but the error the extractor catches. *)
Definition never_crashes (json_loads : string -> json_outcome) : Prop :=
  forall candidate error_msg, json_loads candidate <> Crashed error_msg.

(** The parser returns on each message of [pre]; [parsed] holds what it
    returns, message by message. *)
Definition parses (json_loads : string -> json_outcome)
    (pre : list Message) (parsed : list (list ChatMessage)) : Prop :=
  Forall2 (fun msg results => _parse_message json_loads msg = Returns results)
          pre parsed.

End ParserVocabulary.
Import ParserVocabulary.

(* ================================================================== *)
(** * Vocabulary of the further properties *)
(* ================================================================== *)

Module TableVocabulary.

Definition is_list (v : pyval) : bool :=
  match v with PList _ => true | _ => false end.

(** A decoded row with [n] cells. *)
Definition row_width (n : nat) (r : pyval) : Prop :=
  exists vals, r = PList vals /\ List.length vals = n.

(** The source of rows holds a row that is itself a list. *)
Definition has_list_row (source : pyval) : bool :=
  match source with
  | PList rows => existsb is_list rows
  | _ => false
  end.

(** [[row.get(c) for c in cols]] *)
Definition plain_row (cols : list string) (row : pydict) : pyval :=
  PList (map (fun c => dict_get_default row c PNone) cols).

(** The name of the schema field at position [i]. *)
Definition field_name (i : nat) (f : pydict) : pyval :=
  dict_get_default f "name" (PStr ("col_" ++ string_of_nat i)).

(** The state of the decoder while the columns [cols] stand: every row
    gathered so far has one cell per column. *)
Definition shaped (cols : list pyval) (st : TableState) : Prop :=
  res_columns st = cols /\ Forall (row_width (List.length cols)) (res_rows st).

End TableVocabulary.
Import TableVocabulary.

Module TextVocabulary.

(** The character [c] occurs in [s]. *)
Fixpoint mentions (c : ascii) (s : string) : bool :=
  match s with
  | EmptyString => false
  | String c' rest => Ascii.eqb c' c || mentions c rest
  end.

(** [pat in s]: [pat] starts at some position of [s]. *)
Fixpoint occurs (pat s : string) : bool :=
  String.prefix pat s
  || match s with
     | EmptyString => false
     | String _ rest => occurs pat rest
     end.

(** A table identifier as the settings keep it: not empty, no white space
    around it, no comma in it. *)
Definition table_id (t : string) : Prop :=
  t <> EmptyString /\ strip t = t /\ mentions "," t = false.

End TextVocabulary.
Import TextVocabulary.

Module StreamVocabulary.
Import ChatHandler.

(** A stream element that is not the echo of a user message. *)
Definition contributes (ev : stream_event) : bool :=
  match ev with
  | Yields msg => negb (is_user_echo msg)
  | Fails _ => true
  end.

(** What the page needs of a display message of each kind that it draws
    from the message's fields. *)
Definition well_formed (m : ChatMessage) : Prop :=
  (message_type m = "sql" ->
     content m <> EmptyString /\ sql_query m = Some (content m))
  /\ (message_type m = "data" ->
      exists cols rows,
        data m = Some [("columns", PList cols); ("rows", PList rows)]
        /\ (cols <> [] \/ rows <> []))
  /\ (message_type m = "error" -> content m <> EmptyString).

(** A chart message holds a specification that is not empty, or else an
    image that is not empty. *)
Definition drawable (m : ChatMessage) : Prop :=
  (exists spec, chart_spec m = Some spec /\ py_truthy spec = true
                /\ chart_image m = None)
  \/ (chart_spec m = None
      /\ exists image, chart_image m = Some image /\ image <> []).

End StreamVocabulary.
Import StreamVocabulary.

Module SpecVocabulary.

(** The keys of a specification the normaliser may write. *)
Definition normalised_keys : list string :=
  ["transform"; "encoding"; "data"; "$schema"].

(** [spec["encoding"]], when it is a mapping. *)
Definition encoding_of (spec : pydict) : option pydict :=
  match dict_get spec "encoding" with
  | Some (PDict enc) => Some enc
  | _ => None
  end.

(** The entry is absent or a mapping. *)
Definition mapping_or_absent (spec : pydict) (k : string) : bool :=
  match dict_get spec k with
  | None | Some (PDict _) => true
  | Some _ => false
  end.

End SpecVocabulary.
Import SpecVocabulary.

(* ================================================================== *)
(** * Concrete inputs *)
(* ================================================================== *)

Module Examples.

Definition temporal_x : string * pyval :=
  ("encoding",
   PDict [("x", PDict [("field", PStr "t"); ("type", PStr "temporal")])]).

Definition values_of (rows : list pyval) : string * pyval :=
  ("data", PDict [("values", PList rows)]).

(** A line chart over epoch seconds (1 July 2019), schema declared v4. *)
Definition seconds_spec : pydict :=
  [("$schema", PStr "https://vega.github.io/schema/vega-lite/v4.json");
   ("mark", PStr "line");
   temporal_x;
   values_of [PDict [("t", PInt 1561939200)]; PDict [("t", PInt 1564617600)]]].

Definition seconds_spec_cleaned : pydict :=
  [("$schema", PStr vega_lite_v5);
   ("mark", PStr "line");
   temporal_x;
   values_of [PDict [("t", PInt 1561939200000)];
              PDict [("t", PInt 1564617600000)]]].

(** The same chart already in milliseconds. *)
Definition millis_spec : pydict :=
  [("mark", PStr "line");
   temporal_x;
   values_of [PDict [("t", PInt 1561939200000)]]].





End Examples.
Import Examples.

Module ChatExamples.
Import ChatHandler.


(** A decoder that knows one document, the chart [{"mark": "line"}]. *)
Definition mark_json : string := "{" ++ quote ++ "mark" ++ quote ++ ":1}".
Definition one_json : string -> json_outcome :=
  fun s => if String.eqb s mark_json then Decoded (PDict [("mark", PInt 1)])
           else Rejected.

(** An object whose "mark" opens more arrays than the decoder can follow,
    and a decoder that gives up on it as the interpreter does. *)
Fixpoint brackets (n : nat) : string :=
  match n with
  | O => EmptyString
  | S k => String "[" (brackets k)
  end.

Definition deep_text : string :=
  "{" ++ quote ++ "mark" ++ quote ++ ": " ++ brackets 1200.

Definition recursion_error : string := "maximum recursion depth exceeded".

Definition limited_json : string -> json_outcome :=
  fun s => if String.eqb s deep_text then Crashed recursion_error else Rejected.

Definition no_parts : SystemMessage :=
  {| text := None; sys_data := None; chart := None; analysis := None;
     error := None |}.

(** The end-to-end scenario: a query and a one-row result. *)
Definition select_one : DataResult :=
  {| MessageToDict_data :=
       Ok [("schema", PDict [("fields", PList [PDict [("name", PStr "n")]])]);
           ("data", PList [PDict [("n", PInt 1)]])] |}.

Definition select_one_table : pydict :=
  [("columns", PList [PStr "n"]); ("rows", PList [PList [PInt 1]])].

(** A system message carrying every part at once. *)
Definition full_message : Message :=
  {| user_message := None;
     system_message := Some
       {| text := Some {| parts := ["Sales by day"; mark_json] |};
          sys_data := Some {| generated_sql := "SELECT 1";
                              result := Some select_one |};
          chart := Some {| chart_result := Some
            {| vega_config_set := true;
               MessageToDict_chart :=
                 Ok [("vegaConfig", PDict [("mark", PStr "bar")])];
               image_data := [Byte.x89; Byte.x50] |} |};
          analysis := Some {| progress_event := Some "planning" |};
          error := Some {| error_text := "partial failure" |} |} |}.

Definition sql_only : Message :=
  {| user_message := None;
     system_message := Some
       {| text := None;
          sys_data := Some {| generated_sql := "SELECT 1";
                              result := Some select_one |};
          chart := None; analysis := None; error := None |} |}.

(** A payload whose primary rows hold no cell at all, with formatted rows
    that do. *)
Definition null_rows_payload : pydict :=
  [("schema", PDict [("fields", PList [PDict [("name", PStr "a")]])]);
   ("data", PList [PDict [("fields", PDict [])]]);
   ("formattedData",
    PList [PDict [("fields", PDict [("a", PDict [("stringValue", PStr "x")])])]])].

(** A payload with no primary rows. *)
Definition formatted_only_payload : pydict :=
  [("schema", PDict [("fields", PList [PDict [("name", PStr "a")]])]);
   ("formattedData",
    PList [PDict [("fields", PDict [("a", PDict [("stringValue", PStr "x")])])]])].

(** A system message whose text is the deeply nested object. *)
Definition deep_message : Message :=
  {| user_message := None;
     system_message := Some
       {| text := Some {| parts := [deep_text] |};
          sys_data := None; chart := None; analysis := None; error := None |} |}.

End ChatExamples.
Import ChatExamples.

(* ================================================================== *)
(** * Facts about dictionaries *)
(* ================================================================== *)

Module PyFacts.

Lemma bind_ok {A B : Type} (m : res A) (k : A -> res B) (b : B) :
  bind m k = Ok b -> exists a, m = Ok a /\ k a = Ok b.
Proof. destruct m as [a|e]; simpl; [eauto | discriminate]. Qed.

Lemma dict_get_set_same k v d : dict_get (dict_set k v d) k = Some v.
Proof.
  induction d as [|[k' v'] rest IH]; simpl.
  - now rewrite String.eqb_refl.
  - destruct (k' =? k) eqn:E; simpl; rewrite ?String.eqb_refl, ?E; auto.
Qed.

Lemma dict_get_set_other k k' v d :
  k <> k' -> dict_get (dict_set k v d) k' = dict_get d k'.
Proof.
  intros Hne. induction d as [|[k0 v0] rest IH]; simpl.
  - apply String.eqb_neq in Hne. now rewrite Hne.
  - destruct (k0 =? k) eqn:E; simpl.
    + apply String.eqb_eq in E. subst k0.
      apply String.eqb_neq in Hne. now rewrite Hne.
    + now rewrite IH.
Qed.

Lemma dict_get_del_same k d : dict_get (dict_del k d) k = None.
Proof.
  induction d as [|[k' v'] rest IH]; simpl; auto.
  destruct (k' =? k) eqn:E; simpl; rewrite ?E; auto.
Qed.

Lemma dict_get_del_other k k' d :
  k <> k' -> dict_get (dict_del k d) k' = dict_get d k'.
Proof.
  intros Hne. induction d as [|[k0 v0] rest IH]; simpl; auto.
  destruct (k0 =? k) eqn:E; simpl.
  - apply String.eqb_eq in E. subst k0.
    apply String.eqb_neq in Hne. now rewrite Hne.
  - now rewrite IH.
Qed.

Lemma dict_set_same_id k v d : dict_get d k = Some v -> dict_set k v d = d.
Proof.
  induction d as [|[k' v'] rest IH]; simpl; [discriminate|].
  destruct (k' =? k) eqn:E.
  - apply String.eqb_eq in E. intros [= ->]. now subst.
  - intros H. now rewrite IH.
Qed.

Lemma dict_set_set k v w d : dict_set k v (dict_set k w d) = dict_set k v d.
Proof.
  induction d as [|[k' v'] rest IH]; simpl.
  - now rewrite String.eqb_refl.
  - destruct (k' =? k) eqn:E; simpl; rewrite ?String.eqb_refl, ?E; auto.
    now rewrite IH.
Qed.

Lemma dict_mem_set_other k k' v d :
  k <> k' -> dict_mem k' (dict_set k v d) = dict_mem k' d.
Proof. intros H. unfold dict_mem. now rewrite dict_get_set_other. Qed.

Lemma dict_mem_set_same k v d : dict_mem k (dict_set k v d) = true.
Proof. unfold dict_mem. now rewrite dict_get_set_same. Qed.

Lemma dict_mem_del_same k d : dict_mem k (dict_del k d) = false.
Proof. unfold dict_mem. now rewrite dict_get_del_same. Qed.

End PyFacts.
Import PyFacts.

(* ================================================================== *)
(** * Binary64 facts behind the epoch range test *)
(* ================================================================== *)

Module FloatFacts.

Lemma digits2_pos_lower (p : positive) :
  (2 ^ (Z.pos (digits2_pos p) - 1) <= Z.pos p)%Z.
Proof.
  induction p as [p IH|p IH|]; cbn [digits2_pos].
  - rewrite Pos2Z.inj_succ.
    replace (Z.succ (Z.pos (digits2_pos p)) - 1)%Z
      with (Z.succ (Z.pos (digits2_pos p) - 1))%Z by lia.
    rewrite Z.pow_succ_r by lia. lia.
  - rewrite Pos2Z.inj_succ.
    replace (Z.succ (Z.pos (digits2_pos p)) - 1)%Z
      with (Z.succ (Z.pos (digits2_pos p) - 1))%Z by lia.
    rewrite Z.pow_succ_r by lia. lia.
  - simpl. lia.
Qed.

Lemma digits2_pos_upper (p : positive) :
  (Z.pos p < 2 ^ Z.pos (digits2_pos p))%Z.
Proof.
  induction p as [p IH|p IH|]; cbn [digits2_pos].
  - rewrite Pos2Z.inj_succ, Z.pow_succ_r by lia. lia.
  - rewrite Pos2Z.inj_succ, Z.pow_succ_r by lia. lia.
  - simpl. lia.
Qed.

Lemma shr_exp_lower mrs e n :
  (e <= snd (shr mrs e n) /\ e + n <= snd (shr mrs e n))%Z.
Proof. unfold shr. destruct n; simpl; lia. Qed.

Lemma fexp_lower z : (z - prec <= fexp prec emax z)%Z.
Proof. unfold fexp. apply Z.le_max_l. Qed.

Lemma shr_fexp_exp_lower m e l :
  (Zdigits2 m + e - prec <= snd (shr_fexp prec emax m e l)
   /\ e <= snd (shr_fexp prec emax m e l))%Z.
Proof.
  unfold shr_fexp.
  pose proof (fexp_lower (Zdigits2 m + e)) as Hf.
  generalize dependent (fexp prec emax (Zdigits2 m + e)). intros f Hf.
  destruct (shr_exp_lower (shr_record_of_loc m l) e (f - e)) as [H1 H2].
  split; [lia | exact H1].
Qed.

(** Rounding a product never lowers the exponent below what the number of
    digits of the exact product dictates. *)
Lemma round_aux_finite sx mx ex s m e :
  binary_round_aux prec emax sx mx ex loc_Exact = S754_finite s m e ->
  s = sx /\ (Zdigits2 mx + ex - prec <= e)%Z.
Proof.
  unfold binary_round_aux.
  destruct (shr_fexp prec emax mx ex loc_Exact) as [mrs' e'] eqn:E1.
  destruct (shr_fexp prec emax
              (round_nearest_even (shr_m mrs') (loc_of_shr_record mrs'))
              e' loc_Exact) as [mrs'' e''] eqn:E2.
  pose proof (shr_fexp_exp_lower mx ex loc_Exact) as [H1 _].
  rewrite E1 in H1. simpl in H1.
  pose proof (shr_fexp_exp_lower
                (round_nearest_even (shr_m mrs') (loc_of_shr_record mrs'))
                e' loc_Exact) as [_ H2].
  rewrite E2 in H2. simpl in H2.
  destruct (shr_m mrs''); try discriminate.
  destruct (e'' <=? emax - prec)%Z; try discriminate.
  intros H; inversion H; subst. split; [reflexivity | lia].
Qed.

Definition float_in_range (f : float) : bool :=
  ((1e8 <? f)%float && (f <? 3e9)%float)%bool.

(** A binary64 strictly between 1e8 and 3e9 leaves that range when it is
    multiplied by 1000 (the product is at least 2^35). *)
Lemma float_scaled_out_of_range (f : float) :
  float_in_range f = true -> float_in_range (f * 1000)%float = false.
Proof.
  unfold float_in_range. rewrite !ltb_spec, mul_spec.
  pose proof (Prim2SF_valid f) as Hv.
  change (Prim2SF 1e8) with (S754_finite false 6710886400000000 (-26)).
  change (Prim2SF 3e9) with (S754_finite false 6291456000000000 (-21)).
  change (Prim2SF 1000) with (S754_finite false 8796093022208000 (-43)).
  destruct (Prim2SF f) as [s|s| |s m e];
    try (simpl; destruct s; discriminate); [simpl; discriminate|].
  intros H. apply andb_true_iff in H as [H1 H2].
  destruct s; [discriminate H1|].
  unfold SFltb, SFcompare in H1, H2.
  assert (He1 : (-26 <= e)%Z).
  { destruct (Z.compare_spec (-26) e); try lia; try discriminate. }
  assert (He2 : (e <= -21)%Z).
  { destruct (Z.compare_spec e (-21)); try lia; try discriminate. }
  simpl in Hv. unfold bounded, canonical_mantissa in Hv.
  apply andb_true_iff in Hv as [Hc _]. apply Z.eqb_eq in Hc.
  assert (Hd : Z.pos (digits2_pos m) = 53%Z).
  { pose proof (fexp_lower (Z.pos (digits2_pos m) + e)) as Hl.
    unfold fexp in Hc.
    destruct (Z.max_spec (Z.pos (digits2_pos m) + e - prec)
                (SpecFloat.emin prec emax)) as [[_ Hm]|[_ Hm]];
      change (IntDef.Z.max ?a ?b) with (Z.max a b) in Hc;
      rewrite Hm in Hc; unfold SpecFloat.emin, emax, prec in *; lia. }
  unfold SF64mul, SFmul. cbn [xorb].
  destruct (binary_round_aux prec emax false
              (Z.pos (m * 8796093022208000)) (e + -43) loc_Exact)
    as [s'|s'| |s' m' e'] eqn:R.
  - reflexivity.
  - destruct s'; reflexivity.
  - reflexivity.
  - apply round_aux_finite in R as [-> R].
    assert (Hdig : (105 <= Zdigits2 (Z.pos (m * 8796093022208000)))%Z).
    { cbn [Zdigits2].
      pose proof (digits2_pos_lower m) as Hl. rewrite Hd in Hl.
      pose proof (digits2_pos_upper (m * 8796093022208000)) as Hu.
      rewrite Pos2Z.inj_mul in Hu.
      assert (Hp : (2 ^ 104 < 2 ^ Z.pos (digits2_pos (m * 8796093022208000)))%Z).
      { eapply Z.le_lt_trans; [|exact Hu].
        change (2 ^ 104)%Z with (2 ^ 52 * 2 ^ 52)%Z.
        change (53 - 1)%Z with 52%Z in Hl.
        apply Z.mul_le_mono_nonneg; lia. }
      apply Z.pow_lt_mono_r_iff in Hp; lia. }
    unfold prec in R.
    assert (He' : (-21 < e')%Z) by lia.
    apply andb_false_iff. right.
    unfold SFltb, SFcompare.
    destruct (Z.compare_spec e' (-21)); try lia; reflexivity.
Qed.


End FloatFacts.

(* ================================================================== *)
(** * The chart-spec normaliser: proofs *)
(* ================================================================== *)

Module VisualizationFacts.
Import FloatFacts.

(** ** One field of the temporal repair *)

Lemma scaled_out_of_range x :
  in_epoch_seconds x = true -> in_epoch_seconds (times_1000 x) = false.
Proof.
  destruct x; simpl; try discriminate.
  - intros H. apply andb_true_iff in H as [H1 H2].
    apply Z.ltb_lt in H1. apply Z.ltb_lt in H2.
    apply andb_false_iff. right. apply Z.ltb_ge. lia.
  - apply float_scaled_out_of_range.
Qed.


Lemma is_number_times_1000 x : is_number x = true -> is_number (times_1000 x) = true.
Proof. destruct x; simpl; auto. Qed.

Lemma numeric_cells_str f rows :
  numeric_cells (PStr f) rows = Ok (keep_numbers (map (cell f) rows)).
Proof.
  induction rows as [|row rest IH]; simpl; auto.
  destruct row; simpl; auto.
  rewrite IH. simpl. destruct (dict_get d f) as [x|]; auto.
Qed.

Lemma mapM_scale_str f rows :
  mapM (scale_row (PStr f)) rows = Ok (map (scale_pure f) rows).
Proof.
  induction rows as [|row rest IH]; simpl; auto.
  rewrite IH. destruct row; simpl; auto.
Qed.

Lemma fix_field_str f rows :
  fix_field rows (PStr f)
  = Ok (if triggers f rows then map (scale_pure f) rows else rows).
Proof.
  unfold fix_field, sample_vals, triggers.
  rewrite numeric_cells_str. simpl.
  destruct (negb _ && _); auto using mapM_scale_str.
Qed.

Lemma numeric_cells_nonstr field rows :
  is_str field = false ->
  numeric_cells field rows
  = if unhashable field && existsb is_dict rows then Raise TypeError else Ok [].
Proof.
  intros Hs. induction rows as [|row rest IH]; simpl.
  - now rewrite andb_false_r.
  - destruct row; simpl; rewrite ?IH; auto.
    destruct field; simpl in *; try discriminate; auto;
      destruct (existsb is_dict rest); auto.
Qed.

Lemma fix_field_nonstr field rows :
  is_str field = false ->
  fix_field rows field
  = if unhashable field && existsb is_dict (firstn 5 rows)
    then Raise TypeError else Ok rows.
Proof.
  intros Hs. unfold fix_field, sample_vals.
  rewrite numeric_cells_nonstr by assumption.
  destruct (unhashable field && _); auto.
Qed.

Lemma settled_fix field rows : settled field rows -> fix_field rows field = Ok rows.
Proof.
  unfold settled. destruct field; intros H;
    try (rewrite fix_field_nonstr by reflexivity; now rewrite H).
  rewrite fix_field_str. now rewrite H.
Qed.

Lemma cell_scale_same f row :
  cell f (scale_pure f row) = option_map scale_val (cell f row).
Proof.
  destruct row; simpl; auto.
  destruct (dict_get d f) as [x|] eqn:E; simpl; [|now rewrite E].
  unfold scale_val. destruct (is_number x); simpl.
  - now rewrite dict_get_set_same.
  - now rewrite E.
Qed.

Lemma cell_scale_other f g row :
  g <> f -> cell f (scale_pure g row) = cell f row.
Proof.
  intros Hne. destruct row; simpl; auto.
  destruct (dict_get d g) as [x|]; simpl; auto.
  destruct (is_number x); simpl; auto using dict_get_set_other.
Qed.

Lemma is_dict_scale f row : is_dict (scale_pure f row) = is_dict row.
Proof.
  destruct row; simpl; auto.
  destruct (dict_get d f) as [x|]; auto. destruct (is_number x); auto.
Qed.

Lemma keep_numbers_scaled cells :
  keep_numbers (map (option_map scale_val) cells)
  = map times_1000 (keep_numbers cells).
Proof.
  induction cells as [|[x|] rest IH]; simpl; auto.
  unfold scale_val at 1 2. destruct (is_number x) eqn:E.
  - rewrite is_number_times_1000 by assumption. simpl. now rewrite IH.
  - rewrite E. exact IH.
Qed.

Lemma triggers_by_cells f rows rows' :
  map (cell f) rows = map (cell f) rows' -> triggers f rows = triggers f rows'.
Proof.
  intros H. unfold triggers. now rewrite <- !firstn_map, H.
Qed.

Lemma cells_scaled_same f rows :
  map (cell f) (map (scale_pure f) rows)
  = map (option_map scale_val) (map (cell f) rows).
Proof.
  rewrite !map_map. apply map_ext. intros row. apply cell_scale_same.
Qed.

Lemma cells_scaled_other f g rows :
  g <> f -> map (cell f) (map (scale_pure g) rows) = map (cell f) rows.
Proof.
  intros H. rewrite map_map. apply map_ext. intros row.
  now apply cell_scale_other.
Qed.

(** Once a field has been multiplied it no longer passes the range test. *)
Lemma triggers_once f rows :
  triggers f rows = true -> triggers f (map (scale_pure f) rows) = false.
Proof.
  unfold triggers. rewrite firstn_map, cells_scaled_same, keep_numbers_scaled.
  destruct (keep_numbers (map (cell f) (firstn 5 rows))) as [|x s]; simpl.
  - discriminate.
  - intros H. apply andb_true_iff in H as [H _].
    now rewrite scaled_out_of_range.
Qed.

Lemma dict_shape_scaled f rows :
  map is_dict (map (scale_pure f) rows) = map is_dict rows.
Proof. rewrite map_map. apply map_ext. intros. apply is_dict_scale. Qed.

Lemma has_dict_by_shape rows rows' :
  map is_dict rows = map is_dict rows' ->
  existsb is_dict (firstn 5 rows) = existsb is_dict (firstn 5 rows').
Proof.
  intros H.
  assert (E : forall l, existsb is_dict l = existsb (fun b => b) (map is_dict l)).
  { induction l; simpl; congruence. }
  now rewrite !E, <- !firstn_map, H.
Qed.

Lemma fix_field_settles rows field rows' :
  fix_field rows field = Ok rows' -> settled field rows'.
Proof.
  destruct (is_str field) eqn:Hs.
  - destruct field; try discriminate. rewrite fix_field_str. unfold settled.
    destruct (triggers s rows) eqn:E; intros [= <-].
    + now apply triggers_once.
    + exact E.
  - rewrite fix_field_nonstr by assumption.
    destruct (unhashable field && existsb is_dict (firstn 5 rows)) eqn:E;
      [discriminate|].
    intros [= <-]. destruct field; try discriminate; exact E.
Qed.

Lemma fix_field_step rows h rows' :
  fix_field rows h = Ok rows' ->
  rows' = rows \/ (exists g, h = PStr g /\ triggers g rows = true
                             /\ rows' = map (scale_pure g) rows).
Proof.
  destruct (is_str h) eqn:Hs.
  - destruct h; try discriminate. rewrite fix_field_str.
    destruct (triggers s rows) eqn:E; intros [= <-]; eauto.
  - rewrite fix_field_nonstr by assumption.
    destruct (_ && _); [discriminate|]. intros [= <-]. now left.
Qed.

Lemma settled_preserved field rows h rows' :
  settled field rows -> fix_field rows h = Ok rows' -> settled field rows'.
Proof.
  intros Hs Hf. apply fix_field_step in Hf as [->|(g & -> & Ht & ->)]; auto.
  unfold settled in *.
  destruct field;
    try (rewrite (has_dict_by_shape _ rows) by apply dict_shape_scaled; exact Hs).
  destruct (String.eqb_spec g s) as [->|Hne].
  - congruence.
  - rewrite (triggers_by_cells s _ rows); auto using cells_scaled_other.
Qed.

Lemma foldM_settles fields : forall rows rows',
  foldM fix_field fields rows = Ok rows' ->
  Forall (fun g => settled g rows') fields.
Proof.
  induction fields as [|g rest IH]; intros rows rows' H; [constructor|].
  simpl in H. apply bind_ok in H as (r1 & H1 & H2).
  constructor; [|eauto].
  apply fix_field_settles in H1.
  clear IH. revert r1 H1 H2. induction rest as [|h rest IH]; intros r1 H1 H2.
  - simpl in H2. now inversion H2; subst.
  - simpl in H2. apply bind_ok in H2 as (r2 & H3 & H4).
    eapply IH; [|exact H4]. eapply settled_preserved; eauto.
Qed.

Lemma foldM_settled fields rows :
  Forall (fun g => settled g rows) fields -> foldM fix_field fields rows = Ok rows.
Proof.
  induction 1 as [|g rest Hg _ IH]; simpl; auto.
  rewrite (settled_fix _ _ Hg). simpl. exact IH.
Qed.

Lemma foldM_length fields : forall rows rows',
  foldM fix_field fields rows = Ok rows' -> List.length rows' = List.length rows.
Proof.
  induction fields as [|g rest IH]; simpl; intros rows rows' H.
  - now inversion H.
  - apply bind_ok in H as (r1 & H1 & H2). apply IH in H2. rewrite H2.
    apply fix_field_step in H1 as [->|(f & _ & _ & ->)]; auto using length_map.
Qed.


(** ** What each pass leaves alone *)

Lemma drop_frame spec s1 k :
  drop_window_transform spec = Ok s1 -> k <> "transform" ->
  dict_get s1 k = dict_get spec k.
Proof.
  unfold drop_window_transform. intros H Hk.
  destruct (dict_get spec "transform") as [t|]; [|now inversion H].
  apply bind_ok in H as (steps & _ & H). inversion H; subst.
  destruct (has_window steps); auto using dict_get_del_other.
Qed.

Lemma sorts_frame s1 s2 k :
  clean_empty_sorts s1 = Ok s2 -> k <> "encoding" ->
  dict_get s2 k = dict_get s1 k.
Proof.
  unfold clean_empty_sorts. intros H Hk.
  destruct (dict_get s1 "encoding") as [[]|]; inversion H; subst;
    auto using dict_get_set_other.
Qed.

Lemma fix_frame s2 s3 k :
  _fix_temporal_data s2 = Ok s3 -> k <> "data" ->
  dict_get s3 k = dict_get s2 k.
Proof.
  unfold _fix_temporal_data. intros H Hk.
  destruct (dict_get_default s2 "data" (PDict [])); try discriminate.
  destruct (negb _); [now inversion H|].
  destruct (dict_get_default s2 "encoding" (PDict [])); try discriminate.
  destruct (is_nil _); [now inversion H|].
  apply bind_ok in H as (v & _ & H). inversion H; subst.
  auto using dict_get_set_other.
Qed.

Lemma schema_frame s k :
  k <> "$schema" -> dict_get (force_schema s) k = dict_get s k.
Proof.
  intros Hk. unfold force_schema.
  destruct (dict_mem "$schema" s); auto using dict_get_set_other.
Qed.

Lemma clean_trace spec out :
  _clean_vega_spec spec = Ok out ->
  exists s1 s2 s3,
    drop_window_transform spec = Ok s1 /\
    clean_empty_sorts s1 = Ok s2 /\
    _fix_temporal_data s2 = Ok s3 /\
    out = force_schema s3.
Proof.
  unfold _clean_vega_spec. intros H.
  apply bind_ok in H as (s1 & H1 & H).
  apply bind_ok in H as (s2 & H2 & H).
  apply bind_ok in H as (s3 & H3 & H).
  inversion H; subst. eauto 8.
Qed.

(** ** Empty sorts *)

Lemma clean_axis_idem a : clean_axis (clean_axis a) = clean_axis a.
Proof.
  destruct a; simpl; auto.
  destruct (dict_get d "sort") as [s|] eqn:E; simpl; [|now rewrite E].
  destruct (sort_is_empty s) eqn:Es; simpl.
  - now rewrite dict_get_del_same.
  - now rewrite E, Es.
Qed.

Lemma channel_clean_fixed e k : channel_clean e k -> clean_channel e k = e.
Proof.
  unfold channel_clean, clean_channel.
  destruct (dict_get e k) as [a|] eqn:E; auto.
  intros ->. now apply dict_set_same_id.
Qed.

Lemma clean_channel_cleans e k : channel_clean (clean_channel e k) k.
Proof.
  unfold channel_clean, clean_channel.
  destruct (dict_get e k) as [a|] eqn:E.
  - rewrite dict_get_set_same. apply clean_axis_idem.
  - now rewrite E.
Qed.

Lemma clean_channel_keeps e k k' :
  channel_clean e k -> channel_clean (clean_channel e k') k.
Proof.
  intros H. destruct (String.eqb_spec k' k) as [->|Hne].
  - apply clean_channel_cleans.
  - unfold channel_clean, clean_channel in *.
    destruct (dict_get e k'); auto.
    now rewrite dict_get_set_other.
Qed.

Lemma fold_clean_keeps ks : forall e k,
  channel_clean e k -> channel_clean (fold_left clean_channel ks e) k.
Proof.
  induction ks as [|k' ks IH]; simpl; auto using clean_channel_keeps.
Qed.

Lemma fold_clean_cleans ks : forall e,
  Forall (channel_clean (fold_left clean_channel ks e)) ks.
Proof.
  induction ks as [|k ks IH]; simpl; intros e; constructor; auto.
  apply fold_clean_keeps, clean_channel_cleans.
Qed.

Lemma fold_clean_fixed ks e :
  Forall (channel_clean e) ks -> fold_left clean_channel ks e = e.
Proof.
  induction 1 as [|k ks Hk _ IH]; simpl; auto.
  now rewrite (channel_clean_fixed _ _ Hk).
Qed.

Lemma fold_clean_idem ks e :
  fold_left clean_channel ks (fold_left clean_channel ks e)
  = fold_left clean_channel ks e.
Proof. apply fold_clean_fixed, fold_clean_cleans. Qed.

(** Deleting an empty sort does not touch a channel's type or field. *)
Lemma temporal_field_clean_channel e k k' :
  temporal_field (clean_channel e k') k = temporal_field e k.
Proof.
  unfold clean_channel.
  destruct (dict_get e k') as [a|] eqn:E; auto.
  unfold temporal_field.
  destruct (String.eqb_spec k' k) as [->|Hne].
  - rewrite dict_get_set_same, E.
    destruct a; simpl; auto.
    destruct (dict_get d "sort") as [s|]; auto.
    destruct (sort_is_empty s); auto.
    unfold dict_get_default.
    rewrite !dict_get_del_other by discriminate. reflexivity.
  - now rewrite dict_get_set_other.
Qed.

Lemma temporal_fields_clean ks : forall e,
  temporal_fields (fold_left clean_channel ks e) = temporal_fields e.
Proof.
  induction ks as [|k ks IH]; simpl; auto.
  intros e. rewrite IH. unfold temporal_fields.
  apply flat_map_ext. intros c. apply temporal_field_clean_channel.
Qed.

(** ** Each pass finds nothing to do on the output of the normaliser *)

Lemma drop_again spec s1 t :
  drop_window_transform spec = Ok s1 ->
  dict_get t "transform" = dict_get s1 "transform" ->
  drop_window_transform t = Ok t.
Proof.
  unfold drop_window_transform. intros H Ht.
  destruct (dict_get spec "transform") as [tr|] eqn:E.
  - apply bind_ok in H as (steps & Hi & H). inversion H; subst; clear H.
    destruct (has_window steps) eqn:Hw.
    + rewrite dict_get_del_same in Ht. now rewrite Ht.
    + rewrite E in Ht. rewrite Ht, Hi. simpl. now rewrite Hw.
  - inversion H; subst. rewrite E in Ht. now rewrite Ht.
Qed.

Lemma sorts_again s1 s2 t :
  clean_empty_sorts s1 = Ok s2 ->
  dict_get t "encoding" = dict_get s2 "encoding" ->
  clean_empty_sorts t = Ok t.
Proof.
  unfold clean_empty_sorts. intros H Ht.
  destruct (dict_get s1 "encoding") as [ev|] eqn:E.
  - destruct ev; try discriminate.
    assert (Hs : s2 = dict_set "encoding"
                   (PDict (fold_left clean_channel sort_channels d)) s1)
      by congruence.
    subst s2. clear H.
    rewrite dict_get_set_same in Ht. rewrite Ht.
    rewrite fold_clean_idem. f_equal. now apply dict_set_same_id.
  - injection H as <-. rewrite E in Ht. now rewrite Ht.
Qed.

Lemma fix_again s2 s3 t :
  _fix_temporal_data s2 = Ok s3 ->
  dict_get t "encoding" = dict_get s2 "encoding" ->
  dict_get t "data" = dict_get s3 "data" ->
  _fix_temporal_data t = Ok t.
Proof.
  unfold _fix_temporal_data, dict_get_default. intros H He Hd. rewrite He.
  destruct (dict_get s2 "data") as [dv|] eqn:Ed.
  - destruct dv as [| | | | | |data]; try discriminate.
    destruct (negb (py_truthy _)) eqn:Ev.
    { inversion H; subst. rewrite Hd, Ed. now rewrite Ev. }
    destruct (dict_get s2 "encoding") as [ev|] eqn:Ee.
    + destruct ev as [| | | | | |enc]; try discriminate.
      destruct (is_nil (temporal_fields enc)) eqn:En.
      { inversion H; subst. rewrite Hd, Ed. now rewrite Ev. }
      apply bind_ok in H as (values' & Hv & H). inversion H; subst; clear H.
      rewrite dict_get_set_same in Hd. rewrite Hd, dict_get_set_same.
      assert (Hfix : py_truthy values' = true /\ fix_values (temporal_fields enc) values' = Ok values').
      { unfold fix_values in *.
        destruct (match dict_get data "values" with Some v => v | None => PList [] end)
          as [| | | | |rows|]; try discriminate.
        - inversion Hv; subst. split; [now apply negb_false_iff in Ev | reflexivity].
        - apply bind_ok in Hv as (rows' & Hf & Hv). inversion Hv; subst; clear Hv.
          split.
          + apply foldM_length in Hf. simpl in *.
            destruct rows; [discriminate|]. now destruct rows'.
          + apply foldM_settles in Hf. now rewrite (foldM_settled _ _ Hf). }
      destruct Hfix as [Htr Hfx]. rewrite Htr. simpl. rewrite Hfx. simpl.
      rewrite dict_set_set. f_equal. now apply dict_set_same_id.
    + simpl in *. inversion H; subst. rewrite Hd, Ed. now rewrite Ev.
  - simpl in H. inversion H; subst. rewrite Hd, Ed. reflexivity.
Qed.

Lemma force_schema_idem s : force_schema (force_schema s) = force_schema s.
Proof.
  unfold force_schema. destruct (dict_mem "$schema" s) eqn:E.
  - rewrite dict_mem_set_same. apply dict_set_set.
  - now rewrite E.
Qed.

Lemma force_schema_fixed s :
  force_schema s = s ->
  forall t, dict_get t "$schema" = dict_get s "$schema" -> force_schema t = t.
Proof.
  unfold force_schema, dict_mem. intros H t Ht. rewrite Ht.
  destruct (dict_get s "$schema") eqn:E; auto.
  apply dict_set_same_id. rewrite Ht.
  rewrite <- H, dict_get_set_same in E. now inversion E.
Qed.

Lemma clean_idempotent spec out :
  _clean_vega_spec spec = Ok out -> _clean_vega_spec out = Ok out.
Proof.
  intros H. apply clean_trace in H as (s1 & s2 & s3 & H1 & H2 & H3 & ->).
  unfold _clean_vega_spec.
  rewrite (drop_again spec s1); auto.
  2:{ rewrite schema_frame by discriminate.
      rewrite (fix_frame s2 s3) by (auto; discriminate).
      now rewrite (sorts_frame s1 s2) by (auto; discriminate). }
  simpl. rewrite (sorts_again s1 s2); auto.
  2:{ rewrite schema_frame by discriminate.
      now rewrite (fix_frame s2 s3) by (auto; discriminate). }
  simpl. rewrite (fix_again s2 s3); auto.
  2:{ rewrite schema_frame by discriminate.
      now rewrite (fix_frame s2 s3) by (auto; discriminate). }
  2:{ now rewrite schema_frame by discriminate. }
  simpl. now rewrite force_schema_idem.
Qed.

(** ** The cells of one field through the whole temporal pass *)







(** ** The normaliser returns on every well-shaped specification *)



End VisualizationFacts.

(* ================================================================== *)
(** * The chart-spec normaliser: stated properties *)
(* ================================================================== *)

Module NormaliserClaims.
Import VisualizationFacts.





(** C5. Applying the normaliser to its own output returns that output
    unchanged: in particular no data value is multiplied a second time. *)
Theorem C5_normaliser_idempotent (spec out : pydict) :
  _clean_vega_spec spec = Ok out ->
  _clean_vega_spec out = Ok out
  /\ (forall again, _clean_vega_spec out = Ok again ->
        dict_get again "data" = dict_get out "data").
Proof.
  intros H. pose proof (clean_idempotent spec out H) as Hi.
  split; [exact Hi|]. intros again Ha. congruence.
Qed.

Lemma C5_witness :
  _clean_vega_spec seconds_spec = Ok seconds_spec_cleaned
  /\ _clean_vega_spec seconds_spec_cleaned = Ok seconds_spec_cleaned.
Proof.
  split; [reflexivity|].
  exact (proj1 (C5_normaliser_idempotent seconds_spec seconds_spec_cleaned eq_refl)).
Defined.






End NormaliserClaims.

(* ================================================================== *)
(** * The tabular result decoder: stated properties *)
(* ================================================================== *)

Module DecoderClaims.

Lemma first_tag_dict tags d :
  first_tag tags (PDict d)
  = Ok (match find (fun key => dict_mem key d) tags with
        | Some key => dict_get d key
        | None => None
        end).
Proof.
  induction tags as [|key rest IH]; simpl; auto.
  unfold dict_mem at 1 2.
  destruct (dict_get d key) as [v|] eqn:E; simpl; [now rewrite E | exact IH].
Qed.

(** C2. On a wrapper that is a mapping the unwrap function returns the
    value under the first present tag among stringValue, numberValue,
    boolValue, integerValue, in that order; with none of them present it
    returns null when nullValue is present or the wrapper is empty, and
    otherwise the first value of the wrapper, which then sits under some
    other key.  On {"stringValue": "9", "numberValue": 9} it returns the
    string "9". *)
Theorem C2_unwrap_precedence (d : pydict) :
  (forall v, dict_get d "stringValue" = Some v ->
     _extract_proto_value (PDict d) = Ok v)
  /\ (forall v, dict_get d "stringValue" = None ->
        dict_get d "numberValue" = Some v ->
        _extract_proto_value (PDict d) = Ok v)
  /\ (forall v, dict_get d "stringValue" = None ->
        dict_get d "numberValue" = None ->
        dict_get d "boolValue" = Some v ->
        _extract_proto_value (PDict d) = Ok v)
  /\ (forall v, dict_get d "stringValue" = None ->
        dict_get d "numberValue" = None ->
        dict_get d "boolValue" = None ->
        dict_get d "integerValue" = Some v ->
        _extract_proto_value (PDict d) = Ok v)
  /\ (dict_get d "stringValue" = None ->
      dict_get d "numberValue" = None ->
      dict_get d "boolValue" = None ->
      dict_get d "integerValue" = None ->
      (dict_mem "nullValue" d = true \/ d = [] ->
         _extract_proto_value (PDict d) = Ok PNone)
      /\ (forall k v rest, dict_mem "nullValue" d = false ->
            d = (k, v) :: rest ->
            _extract_proto_value (PDict d) = Ok v
            /\ ~ In k ("nullValue" :: proto_tags)))
  /\ _extract_proto_value
       (PDict [("stringValue", PStr "9"); ("numberValue", PInt 9)])
     = Ok (PStr "9").
Proof.
  assert (Hne : forall k v, dict_get d k = Some v -> negb (is_nil d) = true).
  { intros k v H. destruct d; [discriminate|reflexivity]. }
  unfold _extract_proto_value. simpl py_truthy.
  repeat split.
  - intros v H. rewrite (Hne _ _ H). cbv iota. cbn [negb].
    rewrite first_tag_dict. unfold proto_tags, dict_mem. cbn [find].
    rewrite H. cbn. now rewrite H.
  - intros v H1 H. rewrite (Hne _ _ H). cbv iota. cbn [negb].
    rewrite first_tag_dict. unfold proto_tags, dict_mem. cbn [find].
    rewrite H1, H. cbn. now rewrite H.
  - intros v H1 H2 H. rewrite (Hne _ _ H). cbv iota. cbn [negb].
    rewrite first_tag_dict. unfold proto_tags, dict_mem. cbn [find].
    rewrite H1, H2, H. cbn. now rewrite H.
  - intros v H1 H2 H3 H. rewrite (Hne _ _ H). cbv iota. cbn [negb].
    rewrite first_tag_dict. unfold proto_tags, dict_mem. cbn [find].
    rewrite H1, H2, H3, H. cbn. now rewrite H.
  - intros [Hn| ->]; [|reflexivity].
    destruct d as [|p d']; [reflexivity|]. cbn [is_nil negb]. cbv iota.
    rewrite first_tag_dict. unfold proto_tags. cbn [find].
    unfold dict_mem at 1 2 3 4. rewrite H, H0, H1, H2. cbn.
    now rewrite Hn.
  - subst d. cbn [is_nil negb]. cbv iota.
    rewrite first_tag_dict. unfold proto_tags. cbn [find].
    unfold dict_mem at 1 2 3 4. rewrite H, H0, H1, H2. cbn [bind py_contains].
    rewrite H3. reflexivity.
  - subst d. unfold dict_mem in H3. unfold proto_tags.
    intros [E|[E|[E|[E|[E|[]]]]]]; subst k; cbn in H, H0, H1, H2, H3;
      discriminate.
Qed.

Lemma C2_witness :
  _extract_proto_value (PDict [("numberValue", PInt 9); ("nullValue", PNone)])
  = Ok (PInt 9)
  /\ _extract_proto_value (PDict [("listValue", PStr "a"); ("x", PInt 1)])
     = Ok (PStr "a").
Proof.
  split.
  - destruct (C2_unwrap_precedence
                [("numberValue", PInt 9); ("nullValue", PNone)])
      as (_ & H & _).
    apply H; reflexivity.
  - destruct (C2_unwrap_precedence [("listValue", PStr "a"); ("x", PInt 1)])
      as (_ & _ & _ & _ & H & _).
    destruct (H eq_refl eq_refl eq_refl eq_refl) as [_ H'].
    apply (H' "listValue" (PStr "a") [("x", PInt 1)]); reflexivity.
Defined.

(** The primary pass does not read the "formattedData" entry. *)
Lemma primary_pass_ignores_formatted dr formatted :
  primary_pass (dict_set "formattedData" formatted dr) = primary_pass dr.
Proof.
  unfold primary_pass, schema_columns, dict_get_default.
  now rewrite !dict_get_set_other by discriminate.
Qed.

(** C3. With [st] the columns and rows the primary "data" field yields:
    when it yields one row or more the decoder returns exactly that table,
    whatever the "formattedData" field holds (it is not consulted); when
    it yields no row the decoder returns what the extraction gives on the
    "formattedData" field. *)
Theorem C3_fallback_only_without_primary_rows
    (dr_dict : pydict) (st : TableState) :
  primary_pass dr_dict = Ok st ->
  (res_rows st <> [] ->
     _parse_data_result (payload dr_dict) = Some (table_of st)
     /\ forall formatted,
          _parse_data_result (payload (dict_set "formattedData" formatted dr_dict))
          = Some (table_of st))
  /\ (res_rows st = [] ->
      _parse_data_result (payload dr_dict)
      = match run_pass fallback_step st
                (dict_get_default dr_dict "formattedData" (PList [])) with
        | Ok st' => finish st'
        | Raise _ => None
        end).
Proof.
  intros Hp. split.
  - intros Hr.
    assert (Hf : finish st = Some (table_of st)).
    { unfold finish. destruct (res_rows st); [congruence|].
      now rewrite orb_true_r. }
    assert (Hn : is_nil (res_rows st) = false)
      by (destruct (res_rows st); [congruence|reflexivity]).
    split; [|intros formatted];
      unfold _parse_data_result, payload, parse_dict; simpl;
      rewrite ?primary_pass_ignores_formatted, Hp; simpl; now rewrite Hn.
  - intros Hr. unfold _parse_data_result, payload, parse_dict. simpl.
    rewrite Hp. simpl. rewrite Hr. simpl.
    destruct (run_pass fallback_step st _); reflexivity.
Qed.

Lemma C3_witness :
  (forall formatted,
     _parse_data_result
       (payload (dict_set "formattedData" formatted null_rows_payload))
     = Some [("columns", PList [PStr "a"]); ("rows", PList [PList [PNone]])])
  /\ _parse_data_result (payload formatted_only_payload)
     = Some [("columns", PList [PStr "a"]); ("rows", PList [PList [PStr "x"]])].
Proof.
  split.
  - exact (proj2 (proj1 (C3_fallback_only_without_primary_rows
                           null_rows_payload
                           {| res_columns := [PStr "a"];
                              res_rows := [PList [PNone]] |} eq_refl)
                   ltac:(discriminate))).
  - exact (proj2 (C3_fallback_only_without_primary_rows
                    formatted_only_payload
                    {| res_columns := [PStr "a"]; res_rows := [] |} eq_refl)
             eq_refl).
Defined.

End DecoderClaims.

(* ================================================================== *)
(** * The embedded-spec extractor: stated properties *)
(* ================================================================== *)

Module ExtractorClaims.

Section WithJson.
Variable json_loads : string -> json_outcome.





(** ** The extractor returns unless the decoder lets an exception through *)

Lemma strategy_fenced_returns text matches :
  never_crashes json_loads -> exists found, strategy_fenced json_loads text matches = Returns found.
Proof.
  intros Hj. induction matches as [|m rest IH]; simpl; eauto.
  destruct (json_loads m) as [parsed| |e] eqn:E; auto.
  - destruct (chart_of parsed); eauto.
  - now destruct (Hj _ _ E).
Qed.

Lemma try_inline_returns text start_pos :
  never_crashes json_loads -> exists found, try_inline json_loads text start_pos = Returns found.
Proof.
  intros Hj. unfold try_inline.
  destruct (negb _); eauto.
  destruct (json_loads (drop start_pos text)) as [parsed| |e] eqn:E; eauto.
  - destruct (match_brace 0 0 (drop start_pos text)) as [len|]; eauto.
    destruct (json_loads (take len (drop start_pos text))) as [parsed| |e] eqn:E2;
      eauto.
    now destruct (Hj _ _ E2).
  - now destruct (Hj _ _ E).
Qed.

Lemma strategy_inline_returns text positions :
  never_crashes json_loads -> exists found, strategy_inline json_loads text positions = Returns found.
Proof.
  intros Hj. induction positions as [|p rest IH]; simpl; eauto.
  destruct (try_inline_returns text p Hj) as [[[text' d]|] ->]; eauto.
Qed.

Lemma extract_returns text :
  never_crashes json_loads ->
  exists found, _extract_chart_from_text json_loads text = Returns found.
Proof.
  intros Hj. unfold _extract_chart_from_text, find_chart.
  destruct (strategy_fenced_returns text (fenced_matches text) Hj)
    as [[text1 [d|]] ->]; eauto.
  destruct (strategy_inline_returns text1 (brace_positions text1) Hj)
    as [found ->]; eauto.
Qed.

(** ** An exception of the extractor is an exception of the decoder *)







End WithJson.




End ExtractorClaims.

(* ================================================================== *)
(** * The streamed message parser: stated properties *)
(* ================================================================== *)

Module ParserClaims.
Import ChatHandler.
Local Open Scope list_scope.

Section WithJson.
Variable json_loads : string -> json_outcome.

Lemma consume_app stream : forall messages,
  consume json_loads stream messages
  = messages ++ consume json_loads stream [].
Proof.
  induction stream as [|ev rest IH]; intros messages; simpl.
  - now rewrite app_nil_r.
  - destruct ev; [|reflexivity].
    destruct (_parse_message json_loads msg) as [results|e]; [|reflexivity].
    rewrite IH, (IH results). now rewrite app_assoc.
Qed.

Lemma process_yields pre parsed rest :
  parses json_loads pre parsed ->
  _process_chat_response json_loads (map Yields pre ++ rest)
  = List.concat parsed ++ _process_chat_response json_loads rest.
Proof.
  unfold _process_chat_response.
  induction 1 as [|m results pre parsed Hm _ IH]; simpl; auto.
  rewrite Hm, consume_app, IH. now rewrite app_assoc.
Qed.

Lemma text_chart_spec spec :
  segment "chart" (text_chart spec) /\ Forall vector_chart (text_chart spec).
Proof.
  unfold text_chart, segment, vector_chart.
  destruct spec as [d|]; [destruct (is_nil d)|]; simpl;
    repeat split; repeat constructor; simpl; auto; discriminate.
Qed.

Lemma vega_messages_spec cr :
  segment "chart" (vega_messages cr) /\ Forall vector_chart (vega_messages cr).
Proof.
  unfold vega_messages, segment, vector_chart.
  destruct (vega_config_set cr); [|simpl; auto].
  destruct (MessageToDict_chart cr) as [cr_dict|]; [|simpl; auto].
  destruct (py_truthy _); [|simpl; auto].
  destruct (py_contains _ _) as [[]|]; [| |simpl; auto].
  - simpl. repeat split; repeat constructor; simpl; auto; discriminate.
  - destruct (dict_get_default cr_dict "vegaConfig" (PDict []));
      simpl; repeat split; repeat constructor; simpl; auto; discriminate.
Qed.

Lemma text_roles sys_msg from_text :
  text_messages json_loads sys_msg = Returns from_text ->
  Forall (fun m => role m = "assistant") from_text.
Proof.
  unfold text_messages. destruct (text sys_msg) as [t|];
    [|intros [= <-]; constructor].
  destruct (is_nil _); [intros [= <-]; constructor|].
  destruct (String.eqb _ ""); [intros [= <-]; constructor|].
  destruct (_extract_chart_from_text _ _) as [extracted|e]; [|discriminate].
  intros [= <-]. rewrite Forall_app. split.
  - unfold text_chart. destruct (snd _) as [d|]; [|constructor].
    destruct (is_nil d); repeat constructor.
  - destruct (String.eqb _ ""); repeat constructor.
Qed.

Lemma parse_roles msg results :
  _parse_message json_loads msg = Returns results ->
  Forall (fun m => role m = "assistant") results.
Proof.
  unfold _parse_message.
  destruct (is_user_echo msg); [intros [= <-]; constructor|].
  destruct (system_message msg) as [sys_msg|]; [|intros [= <-]; constructor].
  destruct (text_messages json_loads sys_msg) as [from_text|e] eqn:Et;
    [|discriminate].
  intros [= <-]. rewrite !Forall_app. repeat split.
  - now apply (text_roles sys_msg).
  - unfold data_messages. destruct (sys_data sys_msg) as [dm|]; [|constructor].
    rewrite Forall_app. split.
    + destruct (String.eqb _ ""); repeat constructor.
    + destruct (result dm) as [r|]; [|constructor].
      destruct (_parse_data_result r) as [t|]; [|constructor].
      destruct (is_nil t); repeat constructor.
  - unfold chart_messages. destruct (chart sys_msg) as [c|]; [|constructor].
    destruct (chart_result c) as [cr|]; [|constructor].
    rewrite Forall_app. split.
    + unfold vega_messages.
      destruct (vega_config_set cr); [|constructor].
      destruct (MessageToDict_chart cr); [|constructor].
      destruct (py_truthy _); [|constructor].
      destruct (py_contains _ _) as [[]|]; [| |constructor].
      * repeat constructor.
      * destruct (dict_get_default _ _ _); repeat constructor.
    + unfold image_messages. destruct (is_nil _); repeat constructor.
  - unfold analysis_messages. destruct (analysis sys_msg) as [a|]; [|constructor].
    destruct (progress_event a); repeat constructor.
  - unfold error_messages. destruct (error sys_msg) as [e|]; [|constructor].
    destruct (String.eqb _ ""); repeat constructor.
Qed.

Lemma consume_roles stream : forall messages,
  Forall (fun m => role m = "assistant") messages ->
  Forall (fun m => role m = "assistant") (consume json_loads stream messages).
Proof.
  induction stream as [|ev rest IH]; intros messages Hm; simpl; auto.
  destruct ev.
  - destruct (_parse_message json_loads msg) as [results|e] eqn:E.
    + apply IH. apply Forall_app. split; eauto using parse_roles.
    + apply Forall_app. split; auto.
  - apply Forall_app. split; auto.
Qed.

Ltac one_message :=
  unfold segment, vector_chart, raster_chart; simpl;
  repeat split; repeat constructor; simpl; auto; try discriminate.

Lemma text_messages_split sys_msg from_text :
  text_messages json_loads sys_msg = Returns from_text ->
  exists c t,
    from_text = c ++ t
    /\ segment "chart" c /\ Forall vector_chart c /\ segment "text" t
    /\ (text sys_msg = None -> c = [] /\ t = []).
Proof.
  unfold text_messages. destruct (text sys_msg) as [tm|].
  2:{ intros [= <-]. exists [], []. one_message. }
  destruct (is_nil (parts tm)). { intros [= <-]. exists [], []. one_message. }
  destruct (String.eqb (strip _) ""). { intros [= <-]. exists [], []. one_message. }
  destruct (_extract_chart_from_text _ _) as [extracted|e]; [|discriminate].
  intros [= <-]. eexists _, _. split; [reflexivity|].
  destruct (text_chart_spec (snd extracted)) as [H1 H2].
  repeat split; try apply H1; try apply H2; try discriminate.
  - destruct (String.eqb _ ""); simpl; auto.
  - destruct (String.eqb _ ""); repeat constructor.
Qed.

Lemma text_messages_returns sys_msg :
  (forall candidate error_msg, json_loads candidate <> Crashed error_msg) ->
  exists from_text, text_messages json_loads sys_msg = Returns from_text.
Proof.
  intros Hj. unfold text_messages.
  destruct (text sys_msg) as [tm|]; eauto.
  destruct (is_nil (parts tm)); eauto.
  destruct (String.eqb (strip _) ""); eauto.
  destruct (ExtractorClaims.extract_returns json_loads
              (join " " (parts tm)) Hj) as [found ->].
  eauto.
Qed.

Lemma data_messages_split sys_msg :
  exists s d,
    data_messages sys_msg = s ++ d
    /\ segment "sql" s /\ segment "data" d
    /\ (sys_data sys_msg = None -> s = [] /\ d = []).
Proof.
  unfold data_messages. destruct (sys_data sys_msg) as [dm|].
  2:{ exists [], []. one_message. }
  eexists _, _. split; [reflexivity|].
  repeat split; try discriminate.
  - destruct (String.eqb _ ""); simpl; auto.
  - destruct (String.eqb _ ""); repeat constructor.
  - destruct (result dm) as [r|]; simpl; auto.
    destruct (_parse_data_result r) as [t|]; simpl; auto.
    destruct (is_nil t); simpl; auto.
  - destruct (result dm) as [r|]; [|constructor].
    destruct (_parse_data_result r) as [t|]; [|constructor].
    destruct (is_nil t); repeat constructor.
Qed.

Lemma chart_messages_split sys_msg :
  exists v i,
    chart_messages sys_msg = v ++ i
    /\ segment "chart" v /\ Forall vector_chart v
    /\ segment "chart" i /\ Forall raster_chart i
    /\ (chart sys_msg = None -> v = [] /\ i = []).
Proof.
  unfold chart_messages. destruct (chart sys_msg) as [c|].
  2:{ exists [], []. one_message. }
  destruct (chart_result c) as [cr|].
  2:{ exists [], []. one_message. }
  eexists _, _. split; [reflexivity|].
  destruct (vega_messages_spec cr) as [H1 H2].
  repeat split; try apply H1; try apply H2; try discriminate;
    unfold image_messages; destruct (is_nil _); one_message.
Qed.

Lemma analysis_messages_spec sys_msg :
  segment "reasoning" (analysis_messages sys_msg)
  /\ (analysis sys_msg = None -> analysis_messages sys_msg = []).
Proof.
  unfold analysis_messages. destruct (analysis sys_msg) as [a|].
  - destruct (progress_event a); one_message.
  - one_message.
Qed.

Lemma error_messages_spec sys_msg :
  segment "error" (error_messages sys_msg)
  /\ (error sys_msg = None -> error_messages sys_msg = []).
Proof.
  unfold error_messages. destruct (error sys_msg) as [e|].
  - destruct (String.eqb _ ""); one_message.
  - one_message.
Qed.

End WithJson.

(** C1. The display messages the parser returns for one system message
    are, in this order: at most one chart taken from the text, at most one
    text message, at most one sql message, at most one data message, at
    most one chart carrying the vector specification of the chart part, at
    most one chart carrying its image, at most one reasoning message, at
    most one error message; a part that is absent contributes nothing.
    So the sql message comes before the data message.  The parser returns
    whenever the JSON decoder raises nothing but the error the extractor
    catches. *)
Theorem C1_parts_in_order
    (json_loads : string -> json_outcome) (msg : Message)
    (sys_msg : SystemMessage) :
  is_user_echo msg = false ->
  system_message msg = Some sys_msg ->
  (forall results,
     _parse_message json_loads msg = Returns results ->
     exists from_text text_ sql_ data_ vector_ image_ reasoning_ error_,
       results
       = from_text ++ text_ ++ sql_ ++ data_ ++ vector_ ++ image_
         ++ reasoning_ ++ error_
       /\ segment "chart" from_text /\ Forall vector_chart from_text
       /\ segment "text" text_
       /\ segment "sql" sql_
       /\ segment "data" data_
       /\ segment "chart" vector_ /\ Forall vector_chart vector_
       /\ segment "chart" image_ /\ Forall raster_chart image_
       /\ segment "reasoning" reasoning_
       /\ segment "error" error_
       /\ (text sys_msg = None -> from_text = [] /\ text_ = [])
       /\ (sys_data sys_msg = None -> sql_ = [] /\ data_ = [])
       /\ (chart sys_msg = None -> vector_ = [] /\ image_ = [])
       /\ (analysis sys_msg = None -> reasoning_ = [])
       /\ (error sys_msg = None -> error_ = []))
  /\ ((forall candidate error_msg, json_loads candidate <> Crashed error_msg) ->
      exists results, _parse_message json_loads msg = Returns results).
Proof.
  intros Hu Hs. unfold _parse_message. rewrite Hu, Hs. split.
  - intros results.
    destruct (text_messages json_loads sys_msg) as [from_text|e] eqn:Et;
      [|discriminate].
    intros [= <-].
    destruct (text_messages_split json_loads sys_msg from_text Et)
      as (c & t & -> & Hc & Hcv & Ht & Hto).
    destruct (data_messages_split sys_msg) as (s & d & -> & Hsq & Hd & Hdo).
    destruct (chart_messages_split sys_msg)
      as (v & i & -> & Hv & Hvv & Hi & Hiv & Hco).
    destruct (analysis_messages_spec sys_msg) as [Hr Hro].
    destruct (error_messages_spec sys_msg) as [He Heo].
    exists c, t, s, d, v, i, (analysis_messages sys_msg), (error_messages sys_msg).
    split; [now rewrite <- !app_assoc|].
    repeat (split; [assumption|]). assumption.
  - intros Hj.
    destruct (text_messages_returns json_loads sys_msg Hj) as [from_text ->].
    eauto.
Qed.

Lemma C1_witness :
  (exists results,
     _parse_message one_json full_message = Returns results
     /\ map message_type results
        = ["chart"; "text"; "sql"; "data"; "chart"; "chart"; "reasoning"; "error"])
  /\ exists sql_ data_,
       _parse_message one_json sql_only = Returns (sql_ ++ data_)
       /\ segment "sql" sql_ /\ segment "data" data_.
Proof.
  split; [eexists; split; reflexivity|].
  destruct (C1_parts_in_order one_json sql_only _ eq_refl eq_refl)
    as [Hparts _].
  destruct (Hparts _ eq_refl)
    as (c & t & s & d & v & i & r & e & Hp & _ & _ & _ & Hs & Hd & _ & _ & _ & _
        & _ & _ & Ht & _ & Hc & Ha & He).
  destruct (Ht eq_refl) as [-> ->]. destruct (Hc eq_refl) as [-> ->].
  rewrite (Ha eq_refl), (He eq_refl) in Hp.
  exists s, d. cbn [app] in Hp. rewrite !app_nil_r in Hp.
  split; [|auto]. rewrite <- Hp. reflexivity.
Defined.

(** C9. When the stream fails after yielding the messages [pre], on each
    of which the parser returns, the result is the display messages of
    [pre], in order, followed by exactly one message, of kind error, whose
    content is "Error: " and the text of the failure; nothing the stream
    would have produced afterwards is processed. *)
Theorem C9_stream_failure_surfaces_once
    (json_loads : string -> json_outcome)
    (pre : list Message) (parsed : list (list ChatMessage))
    (error_msg : string) (post : list stream_event) :
  parses json_loads pre parsed ->
  _process_chat_response json_loads (map Yields pre ++ Fails error_msg :: post)
  = List.concat parsed ++ [stream_error error_msg]
  /\ message_type (stream_error error_msg) = "error"
  /\ content (stream_error error_msg) = ("Error: " ++ error_msg)%string.
Proof.
  intros Hp. split; [|split; reflexivity].
  now rewrite (process_yields json_loads pre parsed).
Qed.

Lemma C9_witness :
  _process_chat_response one_json
    (map Yields [sql_only] ++ Fails "connection reset" :: [Yields full_message])
  = List.concat [[sql_message "SELECT 1";
             data_message select_one_table (Some "SELECT 1")]]
    ++ [stream_error "connection reset"]
  /\ message_type (stream_error "connection reset") = "error"
  /\ content (stream_error "connection reset") = "Error: connection reset".
Proof.
  apply (C9_stream_failure_surfaces_once one_json [sql_only]).
  repeat constructor.
Defined.

(** C10. Every display message the per-message parser returns and every
    display message of the stream handler has role "assistant"; and when
    the stream fails after the messages [pre], on each of which the parser
    returns, the result is exactly what the parser returned for them, in
    order, with the single error message after them. *)
Theorem C10_assistant_role_and_prefix_kept
    (json_loads : string -> json_outcome) :
  (forall msg results,
     _parse_message json_loads msg = Returns results ->
     Forall (fun m => role m = "assistant") results)
  /\ (forall stream,
        Forall (fun m => role m = "assistant")
               (_process_chat_response json_loads stream))
  /\ (forall pre parsed error_msg post,
        parses json_loads pre parsed ->
        exists failure,
          _process_chat_response json_loads
            (map Yields pre ++ Fails error_msg :: post)
          = List.concat parsed ++ [failure]
          /\ role failure = "assistant"
          /\ message_type failure = "error").
Proof.
  split; [apply parse_roles|]. split.
  - intros stream. apply consume_roles. constructor.
  - intros pre parsed error_msg post Hp. exists (stream_error error_msg).
    rewrite (process_yields json_loads pre parsed) by assumption. auto.
Qed.

Lemma C10_witness :
  Forall (fun m => role m = "assistant")
         [sql_message "SELECT 1"; data_message select_one_table (Some "SELECT 1")]
  /\ exists failure,
       _process_chat_response one_json
         (map Yields [sql_only] ++ Fails "connection reset" :: [])
       = List.concat [[sql_message "SELECT 1";
                  data_message select_one_table (Some "SELECT 1")]]
         ++ [failure]
       /\ role failure = "assistant"
       /\ message_type failure = "error".
Proof.
  destruct (C10_assistant_role_and_prefix_kept one_json) as (Hr & _ & Hk).
  split.
  - apply (Hr sql_only). reflexivity.
  - apply (Hk [sql_only]). repeat constructor.
Defined.

End ParserClaims.
(* ================================================================== *)
(** * The tabular result decoder: further properties *)
(* ================================================================== *)

Module DecoderExtras.

Lemma mapM_length {A B : Type} (f : A -> res B) (l : list A) : forall l',
  mapM f l = Ok l' -> List.length l' = List.length l.
Proof.
  induction l as [|x rest IH]; simpl; intros l' H.
  - now inversion H.
  - apply bind_ok in H as (y & _ & H). apply bind_ok in H as (ys & Hys & H).
    inversion H; subst. simpl. now rewrite (IH ys).
Qed.

Lemma foldM_invariant {A S : Type} (P : S -> Prop) (Q : A -> Prop)
    (f : S -> A -> res S) :
  (forall s a s', P s -> Q a -> f s a = Ok s' -> P s') ->
  forall l s s', P s -> Forall Q l -> foldM f l s = Ok s' -> P s'.
Proof.
  intros Hstep. induction l as [|a rest IH]; simpl; intros s s' Hs Hl H.
  - now inversion H; subst.
  - apply bind_ok in H as (s1 & H1 & H2). inversion Hl; subst.
    apply (IH s1 s'); auto. eapply Hstep; eauto.
Qed.

Lemma dict_row_shaped cols st row st' :
  cols <> [] -> shaped cols st -> dict_row st row = Ok st' -> shaped cols st'.
Proof.
  intros Hne [Hc Hr]. unfold dict_row. rewrite Hc.
  destruct (dict_mem "fields" row).
  - unfold struct_row. intros H.
    apply bind_ok in H as (r & H & H'). inversion H'; subst st'; clear H'.
    apply bind_ok in H as (vals & Hv & H). inversion H; subst r; clear H.
    split; simpl; auto. apply Forall_app. split; auto.
    constructor; [|constructor]. exists vals. split; auto.
    now apply mapM_length in Hv.
  - unfold direct_row. destruct cols as [|c cols']; [congruence|]. cbn [is_nil].
    intros H. apply bind_ok in H as (cr & H & H'). inversion H'; subst st'; clear H'.
    apply bind_ok in H as (vals & Hv & H). inversion H; subst cr; clear H.
    split; simpl; auto. apply Forall_app. split; auto.
    constructor; [|constructor]. exists vals. split; auto.
    now apply mapM_length in Hv.
Qed.

Lemma primary_step_shaped cols s a s' :
  cols <> [] -> shaped cols s -> is_list a = false ->
  primary_step s a = Ok s' -> shaped cols s'.
Proof.
  intros Hne Hs Ha. destruct a; simpl; try discriminate;
    try (intros [= <-]; assumption).
  now apply dict_row_shaped.
Qed.

Lemma fallback_step_shaped cols s a s' :
  cols <> [] -> shaped cols s -> True ->
  fallback_step s a = Ok s' -> shaped cols s'.
Proof.
  intros Hne Hs _. destruct a; simpl; try (intros [= <-]; assumption).
  now apply dict_row_shaped.
Qed.

Lemma run_pass_shaped (Q : pyval -> Prop) step cols st source st' :
  (forall s a s', shaped cols s -> Q a -> step s a = Ok s' -> shaped cols s') ->
  (forall rows, source = PList rows -> Forall Q rows) ->
  shaped cols st -> run_pass step st source = Ok st' -> shaped cols st'.
Proof.
  intros Hstep Hl Hs. unfold run_pass.
  destruct source as [| | | | |rows|]; try (intros [= <-]; assumption).
  destruct rows as [|r rest]; [intros [= <-]; assumption|].
  apply (foldM_invariant (shaped cols) Q); auto.
Qed.

Lemma no_list_row source rows :
  has_list_row source = false -> source = PList rows ->
  Forall (fun a => is_list a = false) rows.
Proof.
  intros H ->. simpl in H. apply Forall_forall. intros a Ha.
  destruct (is_list a) eqn:E; auto.
  assert (existsb is_list rows = true) by (apply existsb_exists; eauto).
  congruence.
Qed.

Lemma mapM_plain_row row cols :
  mapM (fun c => py_get (PDict row) c PNone) (map PStr cols)
  = Ok (map (fun c => dict_get_default row c PNone) cols).
Proof.
  induction cols as [|c rest IH]; [reflexivity|].
  cbn [map mapM]. rewrite IH. reflexivity.
Qed.

Lemma plain_rows_fold cols : forall rows st,
  cols <> [] ->
  res_columns st = map PStr cols ->
  Forall (fun r => dict_mem "fields" r = false) rows ->
  foldM primary_step (map PDict rows) st
  = Ok {| res_columns := map PStr cols;
          res_rows := res_rows st ++ map (plain_row cols) rows |}.
Proof.
  intros rows st Hne. revert st.
  induction rows as [|r rest IH]; intros st Hc Hf; simpl.
  - rewrite app_nil_r. destruct st; simpl in *; now subst.
  - inversion Hf; subst. unfold dict_row. rewrite H1.
    unfold direct_row. rewrite Hc.
    destruct cols as [|c cols']; [congruence|]. cbn [map is_nil].
    change (PStr c :: map PStr cols') with (map PStr (c :: cols')).
    rewrite mapM_plain_row. cbn [bind fst snd].
    rewrite IH by auto. cbn [res_rows]. now rewrite <- app_assoc.
Qed.

Lemma mapMi_field_names fields : forall i cols,
  mapMi col_name i (map PDict fields) = Ok cols ->
  List.length cols = List.length fields
  /\ forall j f, nth_error fields j = Some f ->
                 nth_error cols j = Some (field_name (i + j) f).
Proof.
  induction fields as [|f rest IH]; simpl; intros i cols H.
  - inversion H; subst. split; auto. intros [|j] g; discriminate.
  - inversion H; subst; clear H.
    destruct (mapMi col_name (S i) (map PDict rest)) as [ys|e] eqn:E;
      [|discriminate].
    simpl in H1. inversion H1; subst; clear H1.
    destruct (IH _ _ E) as [Hl Hn]. split; [simpl; congruence|].
    intros [|j] g Hg; simpl in *.
    + inversion Hg; subst. now rewrite Nat.add_0_r.
    + rewrite (Hn j g Hg). now rewrite Nat.add_succ_r.
Qed.

Lemma mapMi_total fields : forall i,
  exists cols, mapMi col_name i (map PDict fields) = Ok cols.
Proof.
  induction fields as [|f rest IH]; simpl; intros i; eauto.
  destruct (IH (S i)) as [ys ->]. simpl. eauto.
Qed.

(** X1. When the schema declares at least one column and no row of the
    primary field is itself a list, every table the decoder returns has
    the schema's columns, and each of its rows has exactly one cell per
    column. *)
Theorem rows_match_schema_columns
    (dr_dict : pydict) (cols : list pyval) (table : pydict) :
  schema_columns dr_dict = Ok cols ->
  cols <> [] ->
  has_list_row (dict_get_default dr_dict "data" (PList [])) = false ->
  _parse_data_result (payload dr_dict) = Some table ->
  exists rows,
    table = [("columns", PList cols); ("rows", PList rows)]
    /\ Forall (row_width (List.length cols)) rows.
Proof.
  intros Hc Hne Hl. unfold _parse_data_result, payload, parse_dict. simpl.
  unfold primary_pass. rewrite Hc. simpl.
  set (st0 := {| res_columns := cols; res_rows := [] |}).
  assert (H0 : shaped cols st0) by (split; [reflexivity|constructor]).
  destruct (run_pass primary_step st0 _) as [st|e] eqn:E1; [|discriminate].
  assert (H1 : shaped cols st).
  { apply (run_pass_shaped (fun a => is_list a = false) _ _ _ _ _
             (fun s a s' => primary_step_shaped cols s a s' Hne)
             (fun rows => no_list_row _ rows Hl) H0 E1). }
  simpl.
  assert (H2 : forall st', shaped cols st' ->
                 forall t, finish st' = Some t ->
                   exists rows, t = [("columns", PList cols); ("rows", PList rows)]
                                /\ Forall (row_width (List.length cols)) rows).
  { intros st' [Hc' Hr'] t. unfold finish, table_of.
    destruct (_ || _); [|discriminate]. intros [= <-].
    exists (res_rows st'). now rewrite Hc'. }
  destruct (is_nil (res_rows st)); [|simpl; now apply H2].
  destruct (run_pass fallback_step st _) as [st'|e] eqn:E2; [|discriminate].
  simpl. apply H2.
  apply (run_pass_shaped (fun _ => True) _ _ _ _ _
           (fun s a s' => fallback_step_shaped cols s a s' Hne)
           (fun rows _ => proj2 (Forall_forall _ rows) (fun _ _ => I)) H1 E2).
Qed.

Lemma rows_match_schema_columns_witness :
  exists rows,
    select_one_table = [("columns", PList [PStr "n"]); ("rows", PList rows)]
    /\ Forall (row_width 1) rows.
Proof.
  apply (rows_match_schema_columns
           [("schema", PDict [("fields", PList [PDict [("name", PStr "n")]])]);
            ("data", PList [PDict [("n", PInt 1)]])]
           [PStr "n"] select_one_table);
    try reflexivity; discriminate.
Defined.

Lemma parsed_table_shape data_result table :
  _parse_data_result data_result = Some table ->
  exists cols rows,
    table = [("columns", PList cols); ("rows", PList rows)]
    /\ (cols <> [] \/ rows <> []).
Proof.
  unfold _parse_data_result.
  destruct (MessageToDict_data data_result) as [dr|e]; [|discriminate]. simpl.
  unfold parse_dict.
  destruct (primary_pass dr) as [st|e]; [|discriminate]. simpl.
  destruct (if is_nil (res_rows st) then _ else _) as [st'|e]; [|discriminate].
  simpl. unfold finish, table_of. intros H.
  exists (res_columns st'), (res_rows st').
  destruct (res_columns st') as [|c cs]; destruct (res_rows st') as [|r rs];
    simpl in H; try discriminate; inversion H; subst;
    split; auto; (left; discriminate) || (right; discriminate).
Qed.

(** X2. The decoder never returns an empty table: a table it returns has
    the two entries "columns" and "rows", in this order, and at least one
    of the two lists is not empty. *)
Theorem table_never_empty (data_result : DataResult) (table : pydict) :
  _parse_data_result data_result = Some table ->
  exists cols rows,
    table = [("columns", PList cols); ("rows", PList rows)]
    /\ (cols <> [] \/ rows <> []).
Proof. apply parsed_table_shape. Qed.

Lemma table_never_empty_witness :
  exists cols rows,
    select_one_table = [("columns", PList cols); ("rows", PList rows)]
    /\ (cols <> [] \/ rows <> []).
Proof.
  apply (table_never_empty select_one select_one_table). reflexivity.
Defined.

(** X3. Without a schema, when every data row is a plain mapping (no
    "fields" entry) and the first row is not empty, the rows are read by
    the keys of the first row: those keys are the columns, in the row's
    order, and every row gives the values it holds under them, null where
    a key is missing. *)
Theorem plain_rows_take_first_row_keys
    (dr_dict : pydict) (first : pydict) (others : list pydict) :
  first <> [] ->
  Forall (fun r => dict_mem "fields" r = false) (first :: others) ->
  dict_get dr_dict "schema" = None ->
  dict_get dr_dict "data" = Some (PList (map PDict (first :: others))) ->
  _parse_data_result (payload dr_dict)
  = Some [("columns", PList (map PStr (dict_keys first)));
          ("rows", PList (map (plain_row (dict_keys first)) (first :: others)))].
Proof.
  intros Hne Hf Hs Hd.
  assert (Hp : primary_pass dr_dict
               = Ok {| res_columns := map PStr (dict_keys first);
                       res_rows := map (plain_row (dict_keys first))
                                       (first :: others) |}).
  { unfold primary_pass, schema_columns, dict_get_default.
    rewrite Hs, Hd.
    cbn [py_get py_dict_get dict_get bind py_truthy is_nil negb map run_pass
         foldM primary_step].
    inversion Hf; subst. unfold dict_row at 1. rewrite H1.
    unfold direct_row. cbn [res_columns res_rows is_nil].
    rewrite mapM_plain_row. cbn [bind fst snd app].
    rewrite (plain_rows_fold (dict_keys first)); auto.
    destruct first; [congruence|discriminate]. }
  unfold _parse_data_result, payload, parse_dict. cbn [MessageToDict_data bind].
  rewrite Hp. cbn [bind res_rows map is_nil finish res_columns negb orb].
  unfold finish. cbn [res_rows res_columns is_nil negb].
  now rewrite orb_true_r.
Qed.

Lemma plain_rows_take_first_row_keys_witness :
  _parse_data_result
    (payload [("data", PList [PDict [("a", PInt 1); ("b", PInt 2)];
                              PDict [("b", PInt 3)]])])
  = Some [("columns", PList [PStr "a"; PStr "b"]);
          ("rows", PList [PList [PInt 1; PInt 2]; PList [PNone; PInt 3]])].
Proof.
  apply (plain_rows_take_first_row_keys
           [("data", PList [PDict [("a", PInt 1); ("b", PInt 2)];
                            PDict [("b", PInt 3)]])]
           [("a", PInt 1); ("b", PInt 2)] [[("b", PInt 3)]]);
    try reflexivity; try discriminate.
  repeat constructor.
Defined.

(** X4. When the schema's fields are mappings, the decoder has one column
    per field, named by the field's "name" entry and, where a field has
    none, "col_" followed by its position (from 0); reading the columns
    does not fail. *)
Theorem columns_named_by_schema
    (dr_dict schema : pydict) (fields : list pydict) :
  dict_get dr_dict "schema" = Some (PDict schema) ->
  dict_get schema "fields" = Some (PList (map PDict fields)) ->
  exists cols,
    schema_columns dr_dict = Ok cols
    /\ List.length cols = List.length fields
    /\ forall i f, nth_error fields i = Some f ->
                   nth_error cols i = Some (field_name i f).
Proof.
  intros Hs Hf. unfold schema_columns, dict_get_default. rewrite Hs. simpl.
  rewrite Hf. simpl.
  destruct fields as [|f rest].
  - exists []. repeat split; auto. intros [|i] f; discriminate.
  - cbn [map is_nil negb py_iter bind].
    destruct (mapMi_total (f :: rest) 0) as [cols Hc].
    exists cols. split; [exact Hc|].
    exact (mapMi_field_names (f :: rest) 0 cols Hc).
Qed.

Lemma columns_named_by_schema_witness :
  exists cols,
    schema_columns
      [("schema", PDict [("fields", PList [PDict [("name", PStr "n")];
                                           PDict [("mode", PStr "NULLABLE")]])])]
    = Ok cols
    /\ List.length cols = 2
    /\ forall i f,
         nth_error [[("name", PStr "n")]; [("mode", PStr "NULLABLE")]] i = Some f ->
         nth_error cols i = Some (field_name i f).
Proof.
  apply (columns_named_by_schema
           [("schema", PDict [("fields", PList [PDict [("name", PStr "n")];
                                                PDict [("mode", PStr "NULLABLE")]])])]
           [("fields", PList [PDict [("name", PStr "n")];
                              PDict [("mode", PStr "NULLABLE")]])]
           [[("name", PStr "n")]; [("mode", PStr "NULLABLE")]]);
    reflexivity.
Defined.

End DecoderExtras.

(* ================================================================== *)
(** * Text: stripping *)
(* ================================================================== *)

Module TextFacts.

Lemma all_space_rstrip s : all_space s = false -> all_space (rstrip s) = false.
Proof.
  induction s as [|c rest IH]; [discriminate|].
  intros H. cbn [rstrip]. rewrite H. cbn [all_space] in *.
  destruct (is_space c); auto.
Qed.

Lemma rstrip_idem s : rstrip (rstrip s) = rstrip s.
Proof.
  induction s as [|c rest IH]; [reflexivity|].
  cbn [rstrip]. destruct (all_space (String c rest)) eqn:E; [reflexivity|].
  cbn [rstrip]. rewrite IH.
  assert (H : all_space (String c (rstrip rest)) = false).
  { cbn [all_space] in *. destruct (is_space c); auto.
    now apply all_space_rstrip. }
  now rewrite H.
Qed.

Lemma lstrip_head s :
  match lstrip s with
  | EmptyString => True
  | String c _ => is_space c = false
  end.
Proof.
  induction s as [|c rest IH]; simpl; auto.
  destruct (is_space c) eqn:E; auto.
Qed.

Lemma lstrip_rstrip_lstrip s : lstrip (rstrip (lstrip s)) = rstrip (lstrip s).
Proof.
  pose proof (lstrip_head s) as H.
  destruct (lstrip s) as [|c rest]; [reflexivity|].
  cbn [rstrip]. cbn [all_space]. rewrite H. cbn [andb lstrip]. now rewrite H.
Qed.

Lemma strip_idem s : strip (strip s) = strip s.
Proof.
  unfold strip. now rewrite lstrip_rstrip_lstrip, rstrip_idem.
Qed.

Lemma mentions_drop c n : forall s,
  mentions c s = false -> mentions c (drop n s) = false.
Proof.
  induction n as [|n IH]; intros s H; [exact H|].
  destruct s as [|c' rest]; [reflexivity|]. simpl in *.
  apply orb_false_iff in H as [_ H]. auto.
Qed.

Lemma mentions_lstrip c s : mentions c s = false -> mentions c (lstrip s) = false.
Proof.
  induction s as [|c' rest IH]; simpl; auto.
  intros H. destruct (is_space c'); auto.
  apply orb_false_iff in H as [_ H]. auto.
Qed.

End TextFacts.
Import TextFacts.

(* ================================================================== *)
(** * The embedded-spec extractor: further properties *)
(* ================================================================== *)

Module ExtractorExtras.

Lemma chart_of_some parsed d :
  chart_of parsed = Some d ->
  parsed = PDict d /\ dict_mem "encoding" d || dict_mem "mark" d = true.
Proof.
  destruct parsed; try discriminate. simpl.
  destruct (dict_mem "encoding" d0 || dict_mem "mark" d0) eqn:E;
    [|discriminate].
  intros [= <-]. auto.
Qed.

Lemma fenced_at_group s group len :
  fenced_at s = Some (group, len) -> String.prefix "{" group = true.
Proof.
  unfold fenced_at. destruct (String.prefix fence s); [|discriminate].
  destruct (lstrip (skip_tag (drop 3 s))) as [|a [|c rest]]; try discriminate;
    try (destruct a as [[] [] [] [] [] [] [] []]; discriminate).
  destruct a as [[] [] [] [] [] [] [] []]; try discriminate.
  destruct (scan_body rest) as [[body k]|]; [|discriminate].
  intros [= <- _]. reflexivity.
Qed.

Lemma findall_groups s : forall skip m,
  In m (findall_from skip s) -> String.prefix "{" m = true.
Proof.
  induction s as [|c rest IH]; intros skip m; simpl; [contradiction|].
  destruct skip as [|k]; [|apply IH].
  destruct (fenced_at (String c rest)) as [[group len]|] eqn:E; [|apply IH].
  intros [<-|H]; [now apply fenced_at_group in E | eapply IH; eauto].
Qed.

Lemma fenced_at_mentions s :
  mentions "{" s = false -> fenced_at s = None.
Proof.
  intros H. unfold fenced_at. destruct (String.prefix fence s); auto.
  assert (Hm : mentions "{" (lstrip (skip_tag (drop 3 s))) = false).
  { apply mentions_lstrip. unfold skip_tag.
    destruct (String.prefix "json" (drop 3 s));
      [now apply mentions_drop, mentions_drop|].
    destruct (String.prefix "vega-lite" (drop 3 s));
      [now apply mentions_drop, mentions_drop|].
    now apply mentions_drop. }
  destruct (lstrip (skip_tag (drop 3 s))) as [|a rest]; auto.
  destruct a as [[] [] [] [] [] [] [] []]; auto. discriminate.
Qed.

Lemma findall_mentions s : forall skip,
  mentions "{" s = false -> findall_from skip s = [].
Proof.
  induction s as [|c rest IH]; intros skip H; [reflexivity|].
  assert (Hr : mentions "{" rest = false)
    by (simpl in H; now apply orb_false_iff in H).
  cbn [findall_from]. destruct skip as [|k]; [|now apply IH].
  rewrite (fenced_at_mentions _ H). now apply IH.
Qed.

Lemma brace_positions_mentions s : forall i,
  mentions "{" s = false -> brace_positions_from i s = [].
Proof.
  induction s as [|c rest IH]; intros i H; [reflexivity|].
  simpl in *. apply orb_false_iff in H as [Hc Hr].
  rewrite Hc. now apply IH.
Qed.

Lemma brace_positions_drop s : forall i p,
  In p (brace_positions_from i s) ->
  exists q rest, p = i + q /\ drop q s = String "{" rest.
Proof.
  induction s as [|c rest IH]; intros i p; simpl; [contradiction|].
  intros H.
  assert (Hm : In p (brace_positions_from (S i) rest) ->
               exists q rest', p = i + q /\ drop q (String c rest) = String "{" rest').
  { intros Hin. destruct (IH _ _ Hin) as (q & rest' & -> & Hd).
    exists (S q), rest'. split; [lia|exact Hd]. }
  destruct (Ascii.eqb_spec c "{") as [->|Hne]; auto.
  destruct H as [<-|H]; auto.
  exists 0, rest. split; [lia|reflexivity].
Qed.

Lemma prefix_brace rest : String.prefix "{" (String "{" rest) = true.
Proof. destruct rest; reflexivity. Qed.

Lemma match_brace_positive s : forall depth i n,
  match_brace depth i s = Some n -> exists k, n = S k.
Proof.
  induction s as [|c rest IH]; intros depth i n; simpl; [discriminate|].
  destruct (Ascii.eqb c "{"); [apply IH|].
  destruct (Ascii.eqb c "}"); [|apply IH].
  destruct (depth - 1 =? 0)%Z; [|apply IH].
  intros [= <-]. eauto.
Qed.

Lemma leadin_tail_colon t : leadin_tail t = true -> mentions ":" t = true.
Proof.
  induction t as [|c rest IH]; [discriminate|].
  cbn [leadin_tail mentions]. intros H.
  apply orb_true_iff in H as [H|H]; apply andb_true_iff in H as [H1 H2].
  - now rewrite H1.
  - rewrite (IH H2). apply orb_true_r.
Qed.

Lemma flat_map_clean (Q : string -> Prop) (f : string -> list string) l :
  (forall s, Q s -> Forall Q (f s)) -> Forall Q l -> Forall Q (flat_map f l).
Proof.
  intros Hf Hl. induction Hl as [|s l Hs _ IH]; [constructor|].
  cbn [flat_map]. apply Forall_app. auto.
Qed.

Lemma expect_clean c p s :
  mentions c s = false -> Forall (fun t => mentions c t = false) (expect p s).
Proof.
  intros H. unfold expect. destruct (prefix_ci p s); repeat constructor.
  now apply mentions_drop.
Qed.

Lemma optional_clean c alternatives s :
  mentions c s = false ->
  Forall (fun t => mentions c t = false) (optional alternatives s).
Proof.
  intros H. unfold optional. apply Forall_app. split; [|repeat constructor; auto].
  induction alternatives as [|a rest IH]; [constructor|].
  cbn [flat_map]. apply Forall_app. split; auto.
  destruct (prefix_ci a s); repeat constructor. now apply mentions_drop.
Qed.

Lemma leadin_at_colon s : mentions ":" s = false -> leadin_at s = false.
Proof.
  intros H. unfold leadin_at.
  set (Q := fun t => mentions ":" t = false).
  assert (Hc : Forall Q
                 (flat_map (expect "chart")
                    (flat_map (optional ["bar "; "line "; "pie "])
                       (flat_map (optional ["a "; "the "])
                          (flat_map (expect " ")
                             (flat_map (fun r => List.app (expect "'s" r)
                                                          (expect " is" r))
                                       (expect "Here" s))))))).
  { repeat (apply flat_map_clean;
            [intros t Ht;
             first [ now apply expect_clean | now apply optional_clean
                   | apply Forall_app; split; now apply expect_clean ] |]).
    now apply expect_clean. }
  destruct (existsb leadin_tail _) eqn:E; auto.
  apply existsb_exists in E as (t & Hin & Ht).
  rewrite Forall_forall in Hc. specialize (Hc t Hin).
  apply leadin_tail_colon in Ht. unfold Q in Hc. congruence.
Qed.

Lemma leadin_sub_colon s : mentions ":" s = false -> leadin_sub s = s.
Proof.
  induction s as [|c rest IH]; intros H.
  - cbn [leadin_sub]. now rewrite (leadin_at_colon "" H).
  - cbn [leadin_sub]. rewrite (leadin_at_colon _ H).
    cbn [mentions] in H. apply orb_false_iff in H as [_ H].
    now rewrite (IH H).
Qed.

Section WithJson.

Variable json_loads : string -> json_outcome.

Lemma strategy_fenced_some text matches cleaned d :
  strategy_fenced json_loads text matches = Returns (cleaned, Some d) ->
  exists m, In m matches /\ json_loads m = Decoded (PDict d)
            /\ dict_mem "encoding" d || dict_mem "mark" d = true.
Proof.
  induction matches as [|m rest IH]; simpl; [discriminate|].
  destruct (json_loads m) as [parsed| |e] eqn:Ej; [| |discriminate].
  - destruct (chart_of parsed) as [d'|] eqn:Ec.
    + intros [= _ ->]. apply chart_of_some in Ec as [-> Hm]. eauto.
    + intros H. destruct (IH H) as (m' & Hin & Hj & Hm). eauto.
  - intros H. destruct (IH H) as (m' & Hin & Hj & Hm). eauto.
Qed.

Lemma try_inline_some text start_pos text' d rest :
  drop start_pos text = String "{" rest ->
  try_inline json_loads text start_pos = Returns (Some (text', d)) ->
  exists candidate,
    String.prefix "{" candidate = true
    /\ json_loads candidate = Decoded (PDict d)
    /\ dict_mem "encoding" d || dict_mem "mark" d = true.
Proof.
  intros Hd. unfold try_inline. rewrite Hd.
  destruct (negb (has_marker (String "{" rest))); [discriminate|].
  destruct (json_loads (String "{" rest)) as [parsed| |e] eqn:Ej;
    [| |discriminate].
  - destruct (chart_of parsed) as [d'|] eqn:Ec; [|discriminate].
    intros [= _ ->]. apply chart_of_some in Ec as [-> Hm].
    exists (String "{" rest). repeat split; auto using prefix_brace.
  - destruct (match_brace 0 0 (String "{" rest)) as [len|] eqn:Em;
      [|discriminate].
    destruct (match_brace_positive _ _ _ _ Em) as [k ->].
    destruct (json_loads (take (S k) (String "{" rest))) as [parsed| |e] eqn:Ej2;
      try discriminate.
    destruct (chart_of parsed) as [d'|] eqn:Ec; [|discriminate].
    intros [= _ ->]. apply chart_of_some in Ec as [-> Hm].
    exists (take (S k) (String "{" rest)). repeat split; auto.
    cbn [take]. apply prefix_brace.
Qed.

Lemma strategy_inline_some text positions cleaned d :
  (forall p, In p positions -> exists rest, drop p text = String "{" rest) ->
  strategy_inline json_loads text positions = Returns (cleaned, Some d) ->
  exists candidate,
    String.prefix "{" candidate = true
    /\ json_loads candidate = Decoded (PDict d)
    /\ dict_mem "encoding" d || dict_mem "mark" d = true.
Proof.
  induction positions as [|p rest IH]; simpl; [discriminate|].
  intros Hp.
  destruct (try_inline json_loads text p) as [[[text' d']|]|e] eqn:E;
    [| |discriminate].
  - intros [= _ ->]. destruct (Hp p (or_introl eq_refl)) as [r Hr].
    eapply try_inline_some; eauto.
  - apply IH. intros q Hq. apply Hp. now right.
Qed.

(** X5. A specification the extractor returns is a JSON object that has
    an "encoding" or a "mark" key, and it is what the decoder made of a
    candidate that starts with an opening brace. *)
Theorem extracted_spec_is_chart_object (text cleaned : string) (d : pydict) :
  _extract_chart_from_text json_loads text = Returns (cleaned, Some d) ->
  dict_mem "encoding" d || dict_mem "mark" d = true
  /\ exists candidate,
       String.prefix "{" candidate = true
       /\ json_loads candidate = Decoded (PDict d).
Proof.
  unfold _extract_chart_from_text, find_chart.
  destruct (strategy_fenced json_loads text (fenced_matches text))
    as [[text1 [d1|]]|e] eqn:Ef; [| |discriminate].
  - cbn [fst snd]. intros [= _ ->].
    destruct (strategy_fenced_some _ _ _ _ Ef) as (m & Hin & Hj & Hm).
    split; auto. exists m. split; auto.
    now apply (findall_groups text 0).
  - destruct (strategy_inline json_loads text1 (brace_positions text1))
      as [[text2 spec]|e] eqn:Ei; [|discriminate].
    cbn [fst snd]. intros [= _ ->].
    destruct (strategy_inline_some text1 (brace_positions text1) text2 d)
      as (c & Hc & Hj & Hm); auto.
    + intros p Hp. destruct (brace_positions_drop _ _ _ Hp) as (q & rest & -> & Hd).
      eauto.
    + eauto.
Qed.

(** X6. A text that holds no opening brace yields no chart, whatever the
    JSON decoder accepts or raises: the extractor returns the cleaned text
    and no specification. *)
Theorem no_brace_no_chart (text : string) :
  mentions "{" text = false ->
  _extract_chart_from_text json_loads text = Returns (final_cleanup text, None).
Proof.
  intros H.
  unfold _extract_chart_from_text, find_chart, fenced_matches, brace_positions.
  rewrite (findall_mentions _ 0 H). cbn [strategy_fenced].
  now rewrite (brace_positions_mentions _ 0 H).
Qed.

Lemma extract_stripped text cleaned spec :
  _extract_chart_from_text json_loads text = Returns (cleaned, spec) ->
  strip cleaned = cleaned.
Proof.
  unfold _extract_chart_from_text, final_cleanup.
  destruct (find_chart json_loads text) as [found|e]; [|discriminate].
  intros [= <- _]. apply strip_idem.
Qed.

(** X7. The text the extractor returns has no white space at either end:
    stripping it again changes nothing, with or without a chart found.
    The same holds of what [_strip_vega_json] returns. *)
Theorem extracted_text_is_stripped (text : string) :
  (forall cleaned spec,
     _extract_chart_from_text json_loads text = Returns (cleaned, spec) ->
     strip cleaned = cleaned)
  /\ (forall cleaned,
        _strip_vega_json json_loads text = Returns cleaned ->
        strip cleaned = cleaned).
Proof.
  split; [intros cleaned spec; apply extract_stripped|].
  intros cleaned. unfold _strip_vega_json.
  destruct (_extract_chart_from_text json_loads text) as [[c spec]|e] eqn:E;
    [|discriminate].
  intros [= <-]. now apply (extract_stripped text c spec).
Qed.

(** X24. A text that holds neither an opening brace nor a colon passes
    through the extractor unchanged but for the white space at its ends:
    the result is the stripped text and no specification. *)
Theorem plain_text_passes_through (text : string) :
  mentions "{" text = false ->
  mentions ":" text = false ->
  _extract_chart_from_text json_loads text = Returns (strip text, None).
Proof.
  intros Hb Hc.
  unfold _extract_chart_from_text, find_chart, fenced_matches, brace_positions.
  rewrite (findall_mentions _ 0 Hb). cbn [strategy_fenced].
  rewrite (brace_positions_mentions _ 0 Hb). cbn [strategy_inline fst snd].
  unfold final_cleanup. now rewrite (leadin_sub_colon _ Hc).
Qed.

End WithJson.

Lemma extracted_spec_is_chart_object_witness :
  dict_mem "encoding" [("mark", PInt 1)] || dict_mem "mark" [("mark", PInt 1)]
  = true
  /\ exists candidate,
       String.prefix "{" candidate = true
       /\ one_json candidate = Decoded (PDict [("mark", PInt 1)]).
Proof.
  apply (extracted_spec_is_chart_object one_json mark_json ""
           [("mark", PInt 1)]).
  reflexivity.
Defined.

Lemma extracted_text_is_stripped_witness :
  _extract_chart_from_text one_json (" Sales by day " ++ mark_json)
  = Returns ("Sales by day", Some [("mark", PInt 1)])
  /\ strip "Sales by day" = "Sales by day".
Proof.
  split; [reflexivity|].
  apply (proj1 (extracted_text_is_stripped one_json
                  (" Sales by day " ++ mark_json))
           "Sales by day" (Some [("mark", PInt 1)])).
  reflexivity.
Defined.

Lemma plain_text_passes_through_witness :
  _extract_chart_from_text one_json " There are 3 orders. "
  = Returns ("There are 3 orders.", None).
Proof.
  apply (plain_text_passes_through one_json " There are 3 orders. ");
    reflexivity.
Defined.

Lemma no_brace_no_chart_witness :
  _extract_chart_from_text limited_json " Total: 3 rows. "
  = Returns (final_cleanup " Total: 3 rows. ", None).
Proof.
  apply (no_brace_no_chart limited_json " Total: 3 rows. "). reflexivity.
Defined.

End ExtractorExtras.

(* ================================================================== *)
(** * The streamed message parser: further properties *)
(* ================================================================== *)

Module ParserExtras.
Import ChatHandler.
Import ParserClaims.
Import DecoderExtras.
Import ExtractorExtras.
Local Open Scope list_scope.

Section WithJson.

Variable json_loads : string -> json_outcome.

Lemma consume_contributing stream : forall messages,
  consume json_loads (filter contributes stream) messages
  = consume json_loads stream messages.
Proof.
  induction stream as [|ev rest IH]; intros messages; [reflexivity|].
  destruct ev as [msg|e]; cbn [filter contributes].
  - destruct (is_user_echo msg) eqn:E; cbn [negb consume].
    + unfold _parse_message. rewrite E, app_nil_r. apply IH.
    + destruct (_parse_message json_loads msg); [apply IH|reflexivity].
  - reflexivity.
Qed.

(** What the text part gives when the parser returns. *)
Lemma text_messages_cases sys_msg from_text :
  text_messages json_loads sys_msg = Returns from_text ->
  from_text = []
  \/ exists t cleaned spec,
       text sys_msg = Some t
       /\ _extract_chart_from_text json_loads (join " " (parts t))
          = Returns (cleaned, spec)
       /\ from_text
          = text_chart spec
            ++ (if String.eqb (strip cleaned) "" then []
                else [assistant cleaned "text"]).
Proof.
  unfold text_messages. destruct (text sys_msg) as [t|]; [|intros [= <-]; auto].
  destruct (is_nil (parts t)); [intros [= <-]; auto|].
  destruct (String.eqb (strip (join " " (parts t))) ""); [intros [= <-]; auto|].
  destruct (_extract_chart_from_text json_loads (join " " (parts t)))
    as [[cleaned spec]|e] eqn:E; [|discriminate].
  intros [= <-]. right. exists t, cleaned, spec. auto.
Qed.

Lemma parse_forall (P : ChatMessage -> Prop) msg results :
  (forall sys_msg from_text,
     text_messages json_loads sys_msg = Returns from_text ->
     Forall P from_text) ->
  (forall cr, Forall P (vega_messages cr)) ->
  (forall sql, sql <> "" -> P (sql_message sql)) ->
  (forall r table sql,
     _parse_data_result r = Some table -> P (data_message table sql)) ->
  (forall image, image <> [] -> P (image_message image)) ->
  (forall event, P (assistant event "reasoning")) ->
  (forall e, e <> "" -> P (assistant e "error")) ->
  _parse_message json_loads msg = Returns results ->
  Forall P results.
Proof.
  intros Ht Hv Hs Hd Hi Hr He. unfold _parse_message.
  destruct (is_user_echo msg); [intros [= <-]; constructor|].
  destruct (system_message msg) as [sys_msg|]; [|intros [= <-]; constructor].
  destruct (text_messages json_loads sys_msg) as [from_text|e] eqn:Et;
    [|discriminate].
  intros [= <-]. rewrite !Forall_app. repeat split; eauto.
  - unfold data_messages. destruct (sys_data sys_msg) as [dm|]; [|constructor].
    rewrite Forall_app. split.
    + destruct (String.eqb_spec (generated_sql dm) ""); repeat constructor; auto.
    + destruct (result dm) as [r|]; [|constructor].
      destruct (_parse_data_result r) as [t|] eqn:Er; [|constructor].
      destruct (is_nil t); repeat constructor. eauto.
  - unfold chart_messages. destruct (chart sys_msg) as [c|]; [|constructor].
    destruct (chart_result c) as [cr|]; [|constructor].
    rewrite Forall_app. split; auto.
    unfold image_messages.
    destruct (image_data cr); repeat constructor. apply Hi. discriminate.
  - unfold analysis_messages. destruct (analysis sys_msg) as [a|]; [|constructor].
    destruct (progress_event a); repeat constructor; auto.
  - unfold error_messages. destruct (error sys_msg) as [e|]; [|constructor].
    destruct (String.eqb_spec (error_text e) ""); repeat constructor; auto.
Qed.

Lemma consume_forall (P : ChatMessage -> Prop) :
  (forall msg results,
     _parse_message json_loads msg = Returns results -> Forall P results) ->
  (forall error_msg, P (stream_error error_msg)) ->
  forall stream messages,
    Forall P messages -> Forall P (consume json_loads stream messages).
Proof.
  intros Hp He. induction stream as [|ev rest IH]; intros messages Hm; simpl; auto.
  destruct ev.
  - destruct (_parse_message json_loads msg) as [results|e] eqn:E.
    + apply IH. apply Forall_app. split; eauto.
    + apply Forall_app. split; auto.
  - apply Forall_app. split; auto.
Qed.

Lemma vega_forall (P : ChatMessage -> Prop) cr :
  (forall spec, py_truthy spec = true ->
                py_contains "$schema" spec = Ok true ->
                P (chart_message spec)) ->
  Forall P (vega_messages cr).
Proof.
  intros H. unfold vega_messages.
  destruct (vega_config_set cr); [|constructor].
  destruct (MessageToDict_chart cr) as [cr_dict|]; [|constructor].
  destruct (py_truthy _) eqn:Et; [|constructor].
  destruct (py_contains _ _) as [[]|] eqn:Ec; [| |constructor].
  - constructor; [|constructor]. now apply H.
  - destruct (dict_get_default _ _ _) as [| | | | | |d];
      try (constructor; fail).
    constructor; [|constructor]. apply H.
    + destruct d as [|[k v] d']; [discriminate|].
      cbn [dict_set py_truthy]. now destruct (String.eqb k "$schema").
    + cbn [py_contains]. now rewrite dict_mem_set_same.
Qed.

Lemma text_chart_forall (P : ChatMessage -> Prop) spec :
  (forall spec, py_truthy spec = true ->
                py_contains "$schema" spec = Ok true ->
                P (chart_message spec)) ->
  Forall P (text_chart spec).
Proof.
  intros H. unfold text_chart. destruct spec as [d|]; [|constructor].
  destruct d as [|kv d']; constructor; [|constructor]. cbn [is_nil].
  apply H.
  - destruct (dict_mem "$schema" (kv :: d')); [reflexivity|].
    destruct kv as [k v]. cbn [dict_set py_truthy].
    now destruct (String.eqb k "$schema").
  - cbn [py_contains]. destruct (dict_mem "$schema" (kv :: d')) eqn:E;
      [now rewrite E|]. now rewrite dict_mem_set_same.
Qed.

(** X8. On a stream that does not fail and on whose messages the parser
    returns, the handler returns what the parser returned for each
    message, one after the other in the order of arrival (an empty stream
    gives no message); and when the parser raises on a message that
    follows them, the handler returns what was gathered so far followed by
    one error message carrying the exception, and reads no further. *)
Theorem stream_messages_concatenated
    (msgs : list Message) (parsed : list (list ChatMessage)) :
  parses json_loads msgs parsed ->
  _process_chat_response json_loads (map Yields msgs) = List.concat parsed
  /\ (forall msg error_msg rest,
        _parse_message json_loads msg = Propagates error_msg ->
        _process_chat_response json_loads
          (map Yields msgs ++ Yields msg :: rest)
        = List.concat parsed ++ [stream_error error_msg]).
Proof.
  intros Hp. split.
  - pose proof (process_yields json_loads msgs parsed [] Hp) as H.
    rewrite app_nil_r in H. rewrite H. apply app_nil_r.
  - intros msg e rest Hm.
    rewrite (process_yields json_loads msgs parsed) by assumption.
    unfold _process_chat_response. cbn [consume]. now rewrite Hm.
Qed.

(** X9. A streamed message that carries a user text is an echo and adds
    nothing: removing every such message from the stream, whatever system
    part it also holds, leaves the handler's result unchanged. *)
Theorem user_echoes_add_nothing (stream : list stream_event) :
  _process_chat_response json_loads (filter contributes stream)
  = _process_chat_response json_loads stream.
Proof. apply consume_contributing. Qed.

(** X10. Every display message of kind "text" the handler returns has a
    content that is not empty and has no white space at either end. *)
Theorem text_messages_are_stripped (stream : list stream_event) :
  Forall (fun m => message_type m = "text" ->
                   content m <> "" /\ strip (content m) = content m)
         (_process_chat_response json_loads stream).
Proof.
  apply consume_forall; [|discriminate|constructor].
  intros msg results. apply parse_forall; try discriminate.
  - intros sys_msg from_text Ht.
    apply text_messages_cases in Ht as [->|(t & cleaned & spec & _ & He & ->)];
      [constructor|].
    apply Forall_app. split.
    + apply text_chart_forall. discriminate.
    + destruct (String.eqb _ "") eqn:E; constructor; [|constructor].
      intros _. cbn [content assistant].
      pose proof (extract_stripped json_loads _ _ _ He) as Hs.
      rewrite Hs in E. apply String.eqb_neq in E. auto.
  - intros cr. apply vega_forall. discriminate.
Qed.

(** X11. Every display message the handler returns with a vector chart
    specification has a "$schema" entry in that specification, declared
    by the service or added by the handler. *)
Theorem vector_charts_declare_schema (stream : list stream_event) :
  Forall (fun m => forall spec, chart_spec m = Some spec ->
                                py_contains "$schema" spec = Ok true)
         (_process_chat_response json_loads stream).
Proof.
  apply consume_forall; [|discriminate|constructor].
  intros msg results. apply parse_forall; try discriminate.
  - intros sys_msg from_text Ht.
    apply text_messages_cases in Ht as [->|(t & cleaned & spec & _ & He & ->)];
      [constructor|].
    apply Forall_app. split.
    + apply text_chart_forall. intros s _ Hs s' [= <-]. exact Hs.
    + destruct (String.eqb _ ""); repeat constructor; discriminate.
  - intros cr. apply vega_forall. intros s _ Hs s' [= <-]. exact Hs.
Qed.

(** X22. Every display message the handler returns of kind "sql" has a
    content that is not empty and is also its SQL query; every message of
    kind "data" carries a table with the entries "columns" and "rows", of
    which at least one is a list that is not empty; every message of kind
    "error" has a content that is not empty. *)
Theorem messages_are_well_formed (stream : list stream_event) :
  Forall well_formed (_process_chat_response json_loads stream).
Proof.
  apply consume_forall; [| |constructor].
  2:{ intros e. repeat split; try discriminate. }
  intros msg results. apply parse_forall.
  - intros sys_msg from_text Ht.
    apply text_messages_cases in Ht as [->|(t & cleaned & spec & _ & He & ->)];
      [constructor|].
    apply Forall_app. split.
    + apply text_chart_forall. intros s _ _. repeat split; discriminate.
    + destruct (String.eqb _ ""); repeat constructor; discriminate.
  - intros cr. apply vega_forall. intros s _ _. repeat split; discriminate.
  - intros sql Hne. repeat split; try discriminate; auto.
  - intros r table sql Hr. repeat split; try discriminate.
    intros _. destruct (parsed_table_shape _ _ Hr) as (cols & rows & -> & Hne).
    exists cols, rows. auto.
  - intros image _. repeat split; discriminate.
  - intros event. repeat split; discriminate.
  - intros e Hne. repeat split; try discriminate; auto.
Qed.

(** X23. Every display message of kind "chart" the handler returns can be
    drawn: it holds a specification that is not empty and no image, or no
    specification and an image that is not empty. *)
Theorem chart_messages_are_drawable (stream : list stream_event) :
  Forall (fun m => message_type m = "chart" -> drawable m)
         (_process_chat_response json_loads stream).
Proof.
  assert (Hc : forall spec, py_truthy spec = true ->
                 py_contains "$schema" spec = Ok true ->
                 message_type (chart_message spec) = "chart" ->
                 drawable (chart_message spec)).
  { intros spec Ht _ _. left. exists spec. auto. }
  apply consume_forall; [|discriminate|constructor].
  intros msg results. apply parse_forall; try discriminate.
  - intros sys_msg from_text Ht.
    apply text_messages_cases in Ht as [->|(t & cleaned & spec & _ & He & ->)];
      [constructor|].
    apply Forall_app. split.
    + now apply text_chart_forall.
    + destruct (String.eqb _ ""); repeat constructor; discriminate.
  - intros cr. now apply vega_forall.
  - intros image Hne _. right. split; [reflexivity|].
    exists image. split; [reflexivity|exact Hne].
Qed.

End WithJson.

Lemma stream_messages_concatenated_witness :
  _process_chat_response limited_json (map Yields [sql_only])
  = List.concat [[sql_message "SELECT 1";
                  data_message select_one_table (Some "SELECT 1")]]
  /\ _process_chat_response limited_json
       (map Yields [sql_only] ++ Yields deep_message :: [Yields full_message])
     = List.concat [[sql_message "SELECT 1";
                     data_message select_one_table (Some "SELECT 1")]]
       ++ [stream_error recursion_error].
Proof.
  destruct (stream_messages_concatenated limited_json [sql_only]
              [[sql_message "SELECT 1";
                data_message select_one_table (Some "SELECT 1")]])
    as [Hall Hraise]; [repeat constructor|].
  split; [exact Hall|].
  apply Hraise. vm_compute. reflexivity.
Defined.

End ParserExtras.

(* ================================================================== *)
(** * The chart-spec normaliser: further properties *)
(* ================================================================== *)

Module NormaliserExtras.
Import VisualizationFacts.

Lemma clean_channel_get e k' k :
  dict_get (clean_channel e k') k
  = if String.eqb k' k then option_map clean_axis (dict_get e k)
    else dict_get e k.
Proof.
  unfold clean_channel. destruct (String.eqb_spec k' k) as [->|Hne].
  - destruct (dict_get e k) as [a|] eqn:E; simpl; [|now rewrite E].
    apply dict_get_set_same.
  - destruct (dict_get e k'); auto using dict_get_set_other.
Qed.

Lemma fold_clean_get ks : forall e k,
  dict_get (fold_left clean_channel ks e) k
  = if existsb (fun k' => String.eqb k' k) ks
    then option_map clean_axis (dict_get e k)
    else dict_get e k.
Proof.
  induction ks as [|k' ks IH]; intros e k; [reflexivity|].
  cbn [fold_left existsb]. rewrite IH, clean_channel_get.
  destruct (String.eqb k' k); cbn [orb].
  - destruct (dict_get e k) as [a|]; cbn [option_map];
      destruct (existsb _ ks); cbn [option_map]; auto.
    now rewrite clean_axis_idem.
  - reflexivity.
Qed.

Lemma clean_encoding spec out enc :
  _clean_vega_spec spec = Ok out ->
  dict_get spec "encoding" = Some (PDict enc) ->
  dict_get out "encoding"
  = Some (PDict (fold_left clean_channel sort_channels enc)).
Proof.
  intros H He.
  apply clean_trace in H as (s1 & s2 & s3 & H1 & H2 & H3 & ->).
  rewrite schema_frame by discriminate.
  rewrite (fix_frame s2 s3) by (auto; discriminate).
  unfold clean_empty_sorts in H2.
  rewrite (drop_frame spec s1 "encoding" H1) in H2 by discriminate.
  rewrite He in H2.
  assert (Hs : s2 = dict_set "encoding"
                      (PDict (fold_left clean_channel sort_channels enc)) s1)
    by congruence.
  rewrite Hs. apply dict_get_set_same.
Qed.

Lemma in_sort_channels channel :
  In channel sort_channels ->
  existsb (fun k' => String.eqb k' channel) sort_channels = true.
Proof.
  intros H. apply existsb_exists. exists channel. split; auto.
  apply String.eqb_refl.
Qed.

Lemma not_in_sort_channels channel :
  ~ In channel sort_channels ->
  existsb (fun k' => String.eqb k' channel) sort_channels = false.
Proof.
  intros H. destruct (existsb _ sort_channels) eqn:E; auto.
  apply existsb_exists in E as (k & Hin & Hk).
  apply String.eqb_eq in Hk. now subst.
Qed.

(** X12. For a channel of the encoding that is a mapping: on x, y, color
    and theta a "sort" entry that is an empty object or null is deleted
    and the rest of the channel is kept; a channel with another sort,
    with no sort, or outside these four is returned as it was. *)
Theorem empty_sort_removed
    (spec out enc axis : pydict) (channel : string) :
  _clean_vega_spec spec = Ok out ->
  dict_get spec "encoding" = Some (PDict enc) ->
  dict_get enc channel = Some (PDict axis) ->
  exists enc',
    dict_get out "encoding" = Some (PDict enc')
    /\ (In channel sort_channels ->
        (exists s, dict_get axis "sort" = Some s /\ sort_is_empty s = true) ->
        dict_get enc' channel = Some (PDict (dict_del "sort" axis)))
    /\ (~ In channel sort_channels
        \/ dict_get axis "sort" = None
        \/ (exists s, dict_get axis "sort" = Some s /\ sort_is_empty s = false) ->
        dict_get enc' channel = Some (PDict axis)).
Proof.
  intros H He Ha. eexists. split; [exact (clean_encoding _ _ _ H He)|].
  rewrite fold_clean_get, Ha. split.
  - intros Hin (s & Hs & Hempty). rewrite (in_sort_channels _ Hin).
    simpl. now rewrite Hs, Hempty.
  - intros Hcases.
    destruct (existsb _ sort_channels) eqn:E; auto.
    destruct Hcases as [Hout|[Hnone|(s & Hs & Hfull)]].
    + now rewrite (not_in_sort_channels _ Hout) in E.
    + simpl. now rewrite Hnone.
    + simpl. now rewrite Hs, Hfull.
Qed.

Lemma empty_sort_removed_witness :
  exists enc',
    dict_get [("encoding", PDict [("x", PDict [("field", PStr "a")])])] "encoding"
    = Some (PDict enc')
    /\ dict_get enc' "x" = Some (PDict [("field", PStr "a")]).
Proof.
  destruct (empty_sort_removed
              [("encoding",
                PDict [("x", PDict [("field", PStr "a"); ("sort", PDict [])])])]
              [("encoding", PDict [("x", PDict [("field", PStr "a")])])]
              [("x", PDict [("field", PStr "a"); ("sort", PDict [])])]
              [("field", PStr "a"); ("sort", PDict [])] "x"
              eq_refl eq_refl eq_refl)
    as (enc' & He & Hdel & _).
  exists enc'. split; [exact He|].
  apply Hdel; [now left|]. exists (PDict []). split; reflexivity.
Defined.

Lemma fix_data_entries s2 s3 data :
  _fix_temporal_data s2 = Ok s3 ->
  dict_get s2 "data" = Some (PDict data) ->
  exists data',
    dict_get s3 "data" = Some (PDict data')
    /\ (forall k, k <> "values" -> dict_get data' k = dict_get data k)
    /\ py_truthy (dict_get_default data' "values" PNone)
       = py_truthy (dict_get_default data "values" PNone).
Proof.
  unfold _fix_temporal_data, dict_get_default. intros H Hd. rewrite Hd in H.
  destruct (negb (py_truthy _)) eqn:Ev.
  { inversion H; subst. eauto. }
  destruct (match dict_get s2 "encoding" with Some v => v | None => PDict [] end)
    as [| | | | | |enc]; try discriminate.
  destruct (is_nil (temporal_fields enc)).
  { inversion H; subst. eauto. }
  apply bind_ok in H as (values' & Hv & H). inversion H; subst; clear H.
  rewrite dict_get_set_same. eexists. split; [reflexivity|]. split.
  - intros k Hk. apply dict_get_set_other. congruence.
  - rewrite dict_get_set_same.
    apply negb_false_iff in Ev.
    destruct (dict_get data "values") as [v|]; [|discriminate Ev].
    rewrite Ev. unfold fix_values in Hv.
    destruct v as [| | | | |rows|]; try discriminate.
    + now inversion Hv; subst.
    + apply bind_ok in Hv as (rows' & Hf & Hv). inversion Hv; subst.
      apply foldM_length in Hf. simpl in *.
      destruct rows; [discriminate|]. now destruct rows'.
Qed.

Lemma clean_data_entries spec out data :
  _clean_vega_spec spec = Ok out ->
  dict_get spec "data" = Some (PDict data) ->
  exists data',
    dict_get out "data" = Some (PDict data')
    /\ (forall k, k <> "values" -> dict_get data' k = dict_get data k)
    /\ py_truthy (dict_get_default data' "values" PNone)
       = py_truthy (dict_get_default data "values" PNone).
Proof.
  intros H Hd.
  apply clean_trace in H as (s1 & s2 & s3 & H1 & H2 & H3 & ->).
  assert (Hd2 : dict_get s2 "data" = Some (PDict data)).
  { rewrite (sorts_frame s1 s2) by (auto; discriminate).
    now rewrite (drop_frame spec s1) by (auto; discriminate). }
  destruct (fix_data_entries _ _ _ H3 Hd2) as (data' & Hd3 & Hk & Ht).
  exists data'. rewrite schema_frame by discriminate. auto.
Qed.

Lemma clean_other_keys spec out k :
  _clean_vega_spec spec = Ok out ->
  ~ In k normalised_keys ->
  dict_get out k = dict_get spec k.
Proof.
  intros H Hk.
  apply clean_trace in H as (s1 & s2 & s3 & H1 & H2 & H3 & ->).
  unfold normalised_keys in Hk. simpl in Hk.
  rewrite schema_frame by intuition.
  rewrite (fix_frame s2 s3) by (auto; intuition).
  rewrite (sorts_frame s1 s2) by (auto; intuition).
  apply (drop_frame spec s1); auto.
Qed.

(** X13. The normaliser writes only the "transform", "encoding", "data"
    and "$schema" entries, and inside "data" only "values": every other
    entry of the specification, and every other entry of its data
    mapping, is in the output as it was in the input. *)
Theorem other_entries_untouched (spec out : pydict) :
  _clean_vega_spec spec = Ok out ->
  (forall k, ~ In k normalised_keys -> dict_get out k = dict_get spec k)
  /\ (forall data, dict_get spec "data" = Some (PDict data) ->
        exists data',
          dict_get out "data" = Some (PDict data')
          /\ forall k, k <> "values" -> dict_get data' k = dict_get data k).
Proof.
  intros H. split.
  - intros k Hk. now apply clean_other_keys.
  - intros data Hd.
    destruct (clean_data_entries _ _ _ H Hd) as (data' & Hd' & Hk & _). eauto.
Qed.

Lemma other_entries_untouched_witness :
  (forall k, ~ In k normalised_keys ->
     dict_get seconds_spec_cleaned k = dict_get seconds_spec k)
  /\ (forall data, dict_get seconds_spec "data" = Some (PDict data) ->
        exists data',
          dict_get seconds_spec_cleaned "data" = Some (PDict data')
          /\ forall k, k <> "values" -> dict_get data' k = dict_get data k).
Proof.
  apply (other_entries_untouched seconds_spec seconds_spec_cleaned).
  reflexivity.
Defined.

Lemma clean_ok_mappings spec out :
  _clean_vega_spec spec = Ok out ->
  mapping_or_absent spec "encoding" = true
  /\ mapping_or_absent spec "data" = true.
Proof.
  intros H.
  apply clean_trace in H as (s1 & s2 & s3 & H1 & H2 & H3 & _).
  unfold mapping_or_absent. split.
  - unfold clean_empty_sorts in H2.
    rewrite (drop_frame spec s1 "encoding" H1) in H2 by discriminate.
    destruct (dict_get spec "encoding") as [[]|]; auto; discriminate.
  - unfold _fix_temporal_data, dict_get_default in H3.
    rewrite (sorts_frame s1 s2 "data" H2) in H3 by discriminate.
    rewrite (drop_frame spec s1 "data" H1) in H3 by discriminate.
    destruct (dict_get spec "data") as [[]|]; auto; discriminate.
Qed.

(** X14. The normaliser raises, and returns nothing, on a specification
    whose "encoding" entry or whose "data" entry is present and is not a
    mapping. *)
Theorem non_mapping_entry_raises (spec : pydict) :
  mapping_or_absent spec "encoding" = false
  \/ mapping_or_absent spec "data" = false ->
  exists e, _clean_vega_spec spec = Raise e.
Proof.
  intros Hbad.
  destruct (_clean_vega_spec spec) as [out|e] eqn:H; [|eauto].
  exfalso. apply clean_ok_mappings in H as [He Hd].
  destruct Hbad; congruence.
Qed.

Lemma non_mapping_entry_raises_witness :
  exists e,
    _clean_vega_spec [("mark", PStr "bar"); ("data", PList [PDict [("a", PInt 1)]])]
    = Raise e.
Proof.
  apply (non_mapping_entry_raises
           [("mark", PStr "bar"); ("data", PList [PDict [("a", PInt 1)]])]).
  right. reflexivity.
Defined.

Lemma foldM_cells_other f fields : forall cur rows',
  ~ In (PStr f) fields ->
  foldM fix_field fields cur = Ok rows' ->
  map (cell f) rows' = map (cell f) cur.
Proof.
  induction fields as [|h rest IH]; simpl; intros cur rows' Hn H.
  - now inversion H.
  - apply bind_ok in H as (r1 & H1 & H2).
    rewrite (IH _ _ (fun Hin => Hn (or_intror Hin)) H2).
    apply fix_field_step in H1 as [->|(g & -> & _ & ->)]; auto.
    apply cells_scaled_other. intros ->. apply Hn. now left.
Qed.

Lemma fix_rows_cases s s3 rows :
  _fix_temporal_data s = Ok s3 ->
  data_rows s = Some rows ->
  exists rows',
    data_rows s3 = Some rows'
    /\ (rows' = rows
        \/ exists enc, dict_get s "encoding" = Some (PDict enc)
                       /\ foldM fix_field (temporal_fields enc) rows = Ok rows').
Proof.
  unfold _fix_temporal_data, data_rows, dict_get_default. intros H Hd.
  destruct (dict_get s "data") as [dv|] eqn:Ed; [|discriminate].
  destruct dv as [| | | | | |data]; try discriminate.
  destruct (dict_get data "values") as [vv|] eqn:Ev; [|discriminate].
  destruct vv as [| | | | |rows0|]; try discriminate.
  injection Hd as ->.
  destruct (negb (py_truthy (PList rows))).
  { injection H as <-. exists rows. rewrite Ed, Ev. auto. }
  destruct (dict_get s "encoding") as [ev|] eqn:Ee.
  - destruct ev as [| | | | | |enc]; try discriminate.
    destruct (is_nil (temporal_fields enc)).
    { injection H as <-. exists rows. rewrite Ed, Ev. auto. }
    apply bind_ok in H as (values' & Hv & H). injection H as <-.
    unfold fix_values in Hv.
    apply bind_ok in Hv as (rows' & Hfold & Hv). injection Hv as <-.
    exists rows'. rewrite !dict_get_set_same. split; auto.
    right. exists enc. auto.
  - simpl in H. injection H as <-. exists rows. rewrite Ed, Ev. auto.
Qed.

(** X15. The repair of temporal values keeps the number of data rows
    and, for every field that no temporal channel of the encoding is
    bound to, every row's value of that field. *)
Theorem other_fields_and_row_count_kept
    (spec out : pydict) (rows : list pyval) :
  _clean_vega_spec spec = Ok out ->
  data_rows spec = Some rows ->
  exists rows',
    data_rows out = Some rows'
    /\ List.length rows' = List.length rows
    /\ forall f,
         (forall enc, encoding_of spec = Some enc ->
                      ~ In (PStr f) (temporal_fields enc)) ->
         map (cell f) rows' = map (cell f) rows.
Proof.
  intros H Hd.
  pose proof H as Htrace.
  apply clean_trace in Htrace as (s1 & s2 & s3 & H1 & H2 & H3 & ->).
  assert (Hd2 : data_rows s2 = Some rows).
  { unfold data_rows in *.
    rewrite (sorts_frame s1 s2) by (auto; discriminate).
    now rewrite (drop_frame spec s1) by (auto; discriminate). }
  destruct (fix_rows_cases _ _ _ H3 Hd2) as (rows' & Hd3 & Hcases).
  exists rows'. split.
  { unfold data_rows in *. now rewrite schema_frame by discriminate. }
  destruct Hcases as [->|(enc2 & He2 & Hfold)]; [auto|].
  split; [now apply foldM_length in Hfold|].
  intros f Hf. apply (foldM_cells_other f (temporal_fields enc2)); auto.
  assert (He : exists enc, dict_get spec "encoding" = Some (PDict enc)
                           /\ temporal_fields enc2 = temporal_fields enc).
  { unfold clean_empty_sorts in H2.
    rewrite (drop_frame spec s1 "encoding" H1) in H2 by discriminate.
    destruct (dict_get spec "encoding") as [[| | | | | |enc]|] eqn:Ee;
      try discriminate.
    - exists enc. split; auto.
      assert (Hs : s2 = dict_set "encoding"
                          (PDict (fold_left clean_channel sort_channels enc)) s1)
        by congruence.
      rewrite Hs, dict_get_set_same in He2. injection He2 as <-.
      exact (temporal_fields_clean sort_channels enc).
    - assert (Hs : s2 = s1) by congruence. subst s2.
      rewrite (drop_frame spec s1 "encoding" H1) in He2 by discriminate.
      congruence. }
  destruct He as (enc & He & ->).
  apply Hf. unfold encoding_of. now rewrite He.
Qed.

Lemma other_fields_and_row_count_kept_witness :
  exists rows',
    data_rows
      [temporal_x;
       values_of [PDict [("t", PInt 1561939200000); ("n", PInt 1561939200)]]]
    = Some rows'
    /\ List.length rows' = 1
    /\ forall f,
         (forall enc,
            encoding_of
              [temporal_x;
               values_of [PDict [("t", PInt 1561939200); ("n", PInt 1561939200)]]]
            = Some enc ->
            ~ In (PStr f) (temporal_fields enc)) ->
         map (cell f) rows'
         = map (cell f) [PDict [("t", PInt 1561939200); ("n", PInt 1561939200)]].
Proof.
  apply (other_fields_and_row_count_kept
           [temporal_x;
            values_of [PDict [("t", PInt 1561939200); ("n", PInt 1561939200)]]]
           [temporal_x;
            values_of [PDict [("t", PInt 1561939200000); ("n", PInt 1561939200)]]]
           [PDict [("t", PInt 1561939200); ("n", PInt 1561939200)]]);
    reflexivity.
Defined.

End NormaliserExtras.

(* ================================================================== *)
(** * The callers: rendering and the stateless request *)
(* ================================================================== *)

Module CallerExtras.
Import ChatHandler.
Import VisualizationFacts.
Import NormaliserExtras.
Import ParserClaims.
Local Open Scope list_scope.

Lemma clean_without_data spec out :
  _clean_vega_spec spec = Ok out ->
  dict_get spec "data" = None -> dict_get out "data" = None.
Proof.
  intros H Hd.
  apply clean_trace in H as (s1 & s2 & s3 & H1 & H2 & H3 & ->).
  assert (Hd2 : dict_get s2 "data" = None).
  { rewrite (sorts_frame s1 s2) by (auto; discriminate).
    now rewrite (drop_frame spec s1) by (auto; discriminate). }
  rewrite schema_frame by discriminate.
  unfold _fix_temporal_data, dict_get_default in H3. rewrite Hd2 in H3.
  simpl in H3. now inversion H3; subst.
Qed.

Lemma clean_datasets spec out :
  _clean_vega_spec spec = Ok out ->
  dict_mem "datasets" out = dict_mem "datasets" spec.
Proof.
  intros H. unfold dict_mem. rewrite (clean_other_keys spec out); auto.
  unfold normalised_keys. simpl. intuition discriminate.
Qed.

(** The data-source test gives the same answer before and after the
    normaliser. *)
Lemma has_data_clean spec out :
  _clean_vega_spec spec = Ok out ->
  match dict_get spec "data" with
  | Some (PDict data) =>
      exists data', dict_get out "data" = Some (PDict data')
                    /\ has_data data' out = has_data data spec
  | Some _ => False
  | None => dict_get out "data" = None
            /\ has_data [] out = has_data [] spec
  end.
Proof.
  intros H. pose proof (clean_datasets _ _ H) as Hsets.
  destruct (dict_get spec "data") as [dv|] eqn:Ed.
  - destruct (clean_ok_mappings _ _ H) as [_ Hm].
    unfold mapping_or_absent in Hm. rewrite Ed in Hm.
    destruct dv as [| | | | | |data]; try discriminate.
    destruct (clean_data_entries _ _ _ H Ed) as (data' & Hd' & Hk & Hv).
    exists data'. split; auto. unfold has_data, dict_get_default in *.
    rewrite Hv, Hsets, !Hk by discriminate. reflexivity.
  - split; [now apply (clean_without_data spec)|].
    unfold has_data. now rewrite Hsets.
Qed.

(** X16. A specification that [render_chart_from_spec] hands to Altair is
    the normaliser's output for the input, and the function would hand
    over that output unchanged if it were given it again. *)
Theorem altair_gets_normalised_spec (chart_spec spec : pydict) :
  chart_for_altair chart_spec = Some spec ->
  _clean_vega_spec chart_spec = Ok spec
  /\ chart_for_altair spec = Some spec.
Proof.
  unfold chart_for_altair at 1.
  destruct (is_nil chart_spec); [discriminate|].
  destruct (match dict_get_default chart_spec "data" (PDict []) with
            | PDict data => negb (has_data data chart_spec)
            | _ => false
            end) eqn:Eskip; [discriminate|].
  destruct (_clean_vega_spec chart_spec) as [out|e] eqn:H; [|discriminate].
  intros [= ->]. split; [reflexivity|].
  pose proof (has_data_clean _ _ H) as Hd.
  unfold chart_for_altair, dict_get_default in *.
  rewrite (clean_idempotent _ _ H).
  destruct (dict_get chart_spec "data") as [dv|].
  - destruct dv as [| | | | | |data]; try contradiction.
    destruct Hd as (data' & Hd' & Hh). rewrite Hd', Hh, Eskip.
    destruct spec; [discriminate|reflexivity].
  - destruct Hd as [Hd' Hh]. rewrite Hd', Hh, Eskip.
    destruct spec; [|reflexivity].
    apply negb_false_iff in Eskip. rewrite <- Hh in Eskip. discriminate.
Qed.

Lemma altair_gets_normalised_spec_witness :
  _clean_vega_spec seconds_spec = Ok seconds_spec_cleaned
  /\ chart_for_altair seconds_spec_cleaned = Some seconds_spec_cleaned.
Proof.
  apply (altair_gets_normalised_spec seconds_spec seconds_spec_cleaned).
  reflexivity.
Defined.

(** X17. In [render_message] a chart specification is drawn by the
    Vega-Lite renderer or not at all: the Altair fallback of the branch
    without a data source never produces a chart, because
    [render_chart_from_spec] applies the same data-source test to the
    input and returns nothing.  (The normaliser's exceptions are not
    caught there.) *)
Theorem altair_fallback_never_draws (chart_spec : pydict) :
  (exists e, draw_chart_spec chart_spec = Raise e)
  \/ (exists cleaned,
        _clean_vega_spec chart_spec = Ok cleaned
        /\ draw_chart_spec chart_spec = Ok (VegaLite cleaned))
  \/ draw_chart_spec chart_spec = Ok Nothing.
Proof.
  unfold draw_chart_spec.
  destruct (_clean_vega_spec chart_spec) as [cleaned|e] eqn:H;
    [|left; exists e; reflexivity]. right. cbn [bind].
  pose proof (has_data_clean _ _ H) as Hd.
  unfold cleaned_has_data, chart_for_altair, dict_get_default.
  destruct (dict_get chart_spec "data") as [dv|].
  - destruct dv as [| | | | | |data]; try contradiction.
    destruct Hd as (data' & -> & Hh). cbn [bind]. rewrite Hh.
    destruct (has_data data chart_spec);
      [left; exists cleaned; split; reflexivity|].
    right. destruct (is_nil chart_spec); reflexivity.
  - destruct Hd as [-> Hh]. cbn [bind]. rewrite Hh.
    destruct (has_data [] chart_spec);
      [left; exists cleaned; split; reflexivity|].
    right. destruct (is_nil chart_spec); reflexivity.
Qed.

Section WithJson.

Variable json_loads : string -> json_outcome.

Lemma filter_kept (f : ChatMessage -> bool) m l :
  f m = true -> filter f (m :: l) = m :: filter f l.
Proof. intros H. cbn [filter]. now rewrite H. Qed.

Lemma no_user_in_response stream :
  filter (fun msg => String.eqb (role msg) "user")
         (_process_chat_response json_loads stream) = [].
Proof.
  pose proof (consume_roles json_loads stream [] (Forall_nil _)) as H.
  unfold _process_chat_response.
  induction H as [|m l Hm _ IH]; [reflexivity|].
  cbn [filter]. now rewrite Hm, IH.
Qed.

Lemma response_kept_in_history stream :
  filter (fun m => String.eqb (role m) "user" || String.eqb (role m) "assistant")
         (_process_chat_response json_loads stream)
  = _process_chat_response json_loads stream.
Proof.
  pose proof (consume_roles json_loads stream [] (Forall_nil _)) as H.
  unfold _process_chat_response.
  induction H as [|m l Hm _ IH]; [reflexivity|].
  cbn [filter]. now rewrite Hm, IH.
Qed.

(** The session's messages after the given turns: each question followed
    by what the handler returned for it. *)
Lemma session_user_turns (turns : list (string * list stream_event)) :
  map content
    (filter (fun msg => String.eqb (role msg) "user")
       (filter (fun m => String.eqb (role m) "user"
                         || String.eqb (role m) "assistant")
          (flat_map (fun t => user_turn (fst t)
                              :: _process_chat_response json_loads (snd t))
                    turns)))
  = map fst turns.
Proof.
  induction turns as [|[q stream] rest IH]; [reflexivity|].
  cbn [flat_map fst snd app].
  rewrite !filter_kept by reflexivity. cbn [map content user_turn].
  rewrite !filter_app, response_kept_in_history, no_user_in_response.
  cbn [app]. now rewrite IH.
Qed.

(** X18. In stateless mode the request carries exactly the user's earlier
    questions, in order, followed by the new one: nothing the handler
    returned in earlier turns is sent back. *)
Theorem stateless_request_holds_user_turns
    (turns : list (string * list stream_event)) (prompt : string) :
  stateless_messages
    (Some (stateless_history
             (flat_map (fun t => user_turn (fst t)
                                 :: _process_chat_response json_loads (snd t))
                       turns
              ++ [user_turn prompt])))
    prompt
  = map fst turns ++ [prompt].
Proof.
  unfold stateless_messages, stateless_history.
  rewrite filter_app, (filter_kept _ (user_turn prompt) []) by reflexivity.
  cbn [filter].
  rewrite removelast_last, session_user_turns. reflexivity.
Qed.

End WithJson.

End CallerExtras.

(* ================================================================== *)
(** * The SQL shown and the table list *)
(* ================================================================== *)

Module TextExtras.
Import ChatHandler.

Lemma prefix_nil s : String.prefix "" s = true.
Proof. now destruct s. Qed.

Lemma prefix_cons a p b s :
  String.prefix (String a p) (String b s)
  = if Ascii.eqb a b then String.prefix p s else false.
Proof.
  cbn [String.prefix]. destruct (ascii_dec a b) as [->|Hne].
  - now rewrite Ascii.eqb_refl.
  - apply Ascii.eqb_neq in Hne. now rewrite Hne.
Qed.

Lemma skip_drop pat s : forall k,
  remove_all_from pat k s = remove_all_from pat 0 (drop k s).
Proof.
  induction s as [|c rest IH]; intros [|k]; try reflexivity.
  cbn [remove_all_from drop]. apply IH.
Qed.

(** The result of the removal does not start with one, two or three
    backquotes unless the text did. *)
Lemma removed_head_1 s :
  String.prefix "`" s = false ->
  String.prefix "`" (remove_all_from "```" 0 s) = false.
Proof.
  destruct s as [|c rest]; [reflexivity|].
  rewrite prefix_cons. intros H. cbn [remove_all_from].
  rewrite prefix_cons.
  destruct (Ascii.eqb "`" c) eqn:E; [now rewrite prefix_nil in H|].
  cbv iota. now rewrite prefix_cons, E.
Qed.

Lemma removed_head_2 s :
  String.prefix "``" s = false ->
  String.prefix "``" (remove_all_from "```" 0 s) = false.
Proof.
  destruct s as [|c rest]; [reflexivity|].
  rewrite prefix_cons. intros H. cbn [remove_all_from].
  rewrite prefix_cons.
  destruct (Ascii.eqb "`" c) eqn:E.
  - assert (H3 : String.prefix "``" rest = false).
    { destruct rest as [|c' rest']; [reflexivity|].
      rewrite prefix_cons in *. destruct (Ascii.eqb "`" c'); auto.
      now rewrite prefix_nil in H. }
    rewrite H3. rewrite prefix_cons, E. now apply removed_head_1.
  - cbv iota. now rewrite prefix_cons, E.
Qed.

Lemma removed_head_3 s :
  String.prefix "```" s = false ->
  String.prefix "```" (remove_all_from "```" 0 s) = false.
Proof.
  destruct s as [|c rest]; [reflexivity|].
  intros H. cbn [remove_all_from]. rewrite H.
  rewrite prefix_cons in *.
  destruct (Ascii.eqb "`" c); auto. now apply removed_head_2.
Qed.

Lemma drop_length k : forall s, String.length (drop k s) <= String.length s.
Proof.
  induction k as [|k IH]; intros [|c rest]; simpl; auto.
Qed.

Lemma removed_no_fence n : forall s,
  String.length s <= n -> occurs "```" (remove_all_from "```" 0 s) = false.
Proof.
  induction n as [|n IH]; intros [|c rest] Hn; try reflexivity;
    [simpl in Hn; lia|].
  simpl in Hn.
  destruct (String.prefix "```" (String c rest)) eqn:E.
  - cbn [remove_all_from]. rewrite E. cbn [String.length Nat.sub].
    rewrite skip_drop. apply IH.
    pose proof (drop_length 2 rest). lia.
  - pose proof (removed_head_3 _ E) as Hh.
    cbn [remove_all_from] in *. rewrite E in *.
    cbn [occurs]. rewrite Hh. cbn [orb]. apply IH. lia.
Qed.

Lemma occurs_tail pat c rest :
  occurs pat (String c rest) = false -> occurs pat rest = false.
Proof. cbn [occurs]. intros H. now apply orb_false_iff in H. Qed.

Lemma occurs_lstrip pat s : occurs pat s = false -> occurs pat (lstrip s) = false.
Proof.
  induction s as [|c rest IH]; intros H; [exact H|].
  cbn [lstrip]. destruct (is_space c); auto.
  apply IH. now apply occurs_tail in H.
Qed.

Lemma prefix_rstrip s : forall pat,
  String.prefix pat (rstrip s) = true -> String.prefix pat s = true.
Proof.
  induction s as [|c rest IH]; intros pat; [auto|].
  cbn [rstrip]. destruct (all_space (String c rest)).
  - destruct pat; [intros _; apply prefix_nil|discriminate].
  - destruct pat as [|a p]; [intros _; apply prefix_nil|].
    rewrite !prefix_cons. destruct (Ascii.eqb a c); auto.
Qed.

Lemma occurs_rstrip pat s : occurs pat s = false -> occurs pat (rstrip s) = false.
Proof.
  induction s as [|c rest IH]; intros H; [exact H|].
  pose proof (prefix_rstrip (String c rest) pat) as Hp.
  cbn [occurs] in H. apply orb_false_iff in H as [H1 H2].
  cbn [rstrip] in *. destruct (all_space (String c rest)).
  - cbn [occurs]. destruct (String.prefix pat "") eqn:E; auto.
    rewrite Hp in H1; auto.
  - cbn [occurs]. rewrite (IH H2), orb_false_r.
    destruct (String.prefix pat (String c (rstrip rest))) eqn:E; auto.
    rewrite Hp in H1; auto.
Qed.

(** X19. The SQL text the page shows holds no code fence (three
    backquotes in a row) and has no white space at either end, whatever
    the query or the content of the message. *)
Theorem sql_shown_has_no_fence (msg : ChatMessage) :
  occurs "```" (sql_clean msg) = false
  /\ strip (sql_clean msg) = sql_clean msg.
Proof.
  unfold sql_clean. split; [|apply strip_idem].
  unfold strip. apply occurs_rstrip, occurs_lstrip.
  unfold remove_all at 1. eapply removed_no_fence. apply Nat.le_refl.
Qed.

Lemma mentions_rstrip c s : mentions c s = false -> mentions c (rstrip s) = false.
Proof.
  induction s as [|c' rest IH]; intros H; [exact H|].
  cbn [rstrip]. destruct (all_space (String c' rest)); [reflexivity|].
  cbn [mentions] in *. apply orb_false_iff in H as [H1 H2].
  now rewrite H1, IH.
Qed.

Lemma split_not_nil sep s : split sep s <> [].
Proof.
  destruct s as [|c rest]; simpl; [discriminate|].
  destruct (Ascii.eqb c sep); [discriminate|].
  destruct (split sep rest); discriminate.
Qed.

Lemma split_pieces sep s :
  Forall (fun piece => mentions sep piece = false) (split sep s).
Proof.
  induction s as [|c rest IH]; simpl; [repeat constructor|].
  destruct (Ascii.eqb c sep) eqn:E; [constructor; auto|].
  destruct (split sep rest) as [|piece pieces].
  - repeat constructor. simpl. now rewrite E.
  - inversion IH; subst. constructor; auto. simpl. now rewrite E.
Qed.

Lemma split_whole sep p : mentions sep p = false -> split sep p = [p].
Proof.
  induction p as [|c rest IH]; intros H; [reflexivity|].
  simpl in *. apply orb_false_iff in H as [H1 H2].
  now rewrite H1, (IH H2).
Qed.

Lemma split_app sep p rest :
  mentions sep p = false ->
  split sep (p ++ String sep rest) = p :: split sep rest.
Proof.
  induction p as [|c p' IH]; intros H; simpl in *.
  - now rewrite Ascii.eqb_refl.
  - apply orb_false_iff in H as [H1 H2]. now rewrite H1, (IH H2).
Qed.

Lemma split_join ids :
  ids <> [] ->
  Forall (fun t => mentions "," t = false) ids ->
  split "," (join "," ids) = ids.
Proof.
  induction ids as [|p [|q rest] IH]; intros Hne Hf; [congruence| |].
  - inversion Hf; subst. now apply split_whole.
  - inversion Hf; subst.
    change (join "," (p :: q :: rest))
      with (p ++ String "," (join "," (q :: rest)))%string.
    rewrite split_app by assumption. f_equal. apply IH; [discriminate|assumption].
Qed.

(** X20. Every entry of the table list is a table identifier: it is not
    empty, has no white space around it and holds no comma, whatever the
    configured string is. *)
Theorem table_ids_are_clean (bq_table_ids : string) :
  Forall table_id (table_ids_list bq_table_ids).
Proof.
  unfold table_ids_list. apply Forall_forall. intros t Ht.
  apply in_map_iff in Ht as (piece & <- & Hin).
  apply filter_In in Hin as [Hin Hne].
  apply negb_true_iff, String.eqb_neq in Hne.
  repeat split; auto using strip_idem.
  unfold strip. apply mentions_rstrip, mentions_lstrip.
  pose proof (split_pieces "," bq_table_ids) as Hp.
  rewrite Forall_forall in Hp. now apply Hp.
Qed.

(** X21. Writing table identifiers with commas between them and reading
    the string back gives the same identifiers in the same order. *)
Theorem table_ids_round_trip (ids : list string) :
  Forall table_id ids ->
  table_ids_list (join "," ids) = ids.
Proof.
  intros Hf. unfold table_ids_list.
  destruct ids as [|p rest]; [reflexivity|].
  rewrite split_join; [|discriminate|].
  2:{ apply Forall_forall. intros t Ht. rewrite Forall_forall in Hf.
      now destruct (Hf t Ht) as (_ & _ & H). }
  induction Hf as [|t l (Hne & Hs & _) _ IH]; [reflexivity|].
  cbn [filter]. rewrite Hs.
  apply String.eqb_neq in Hne. rewrite Hne. cbn [negb map]. now rewrite Hs, IH.
Qed.

Lemma table_ids_round_trip_witness :
  table_ids_list (join "," ["orders"; "order_items"; "users"])
  = ["orders"; "order_items"; "users"].
Proof.
  apply (table_ids_round_trip ["orders"; "order_items"; "users"]).
  repeat constructor; discriminate.
Defined.

End TextExtras.
